(** * The items service: Express handlers over a Postgres pool

    A shallow embedding of [app/src/index.js] and [app/src/db.js].

    - [JS]: the JavaScript values that flow through the handlers
      (request bodies, query parameters, result rows).
    - [Service]: the program itself, written against an arbitrary store:
      the pool configuration, [db.query] / [db.init], the start-up retry
      loop, the five [/items] handlers, [/metrics], [/healthz], the timing
      middleware and the order in which they are registered on [app].
    - [Pg]: a model of the [items] table behind the five SQL statements
      the handlers send, used where a property depends on what the store
      answers. *)

From Stdlib Require Import ZArith List String Ascii Bool Lia.
From Stdlib Require Import Sorting.Sorted Sorting.Permutation.
From Stdlib Require Import DecimalString.
From Equations Require Import Equations.
Import ListNotations.

Open Scope string_scope.
Open Scope Z_scope.

(* ===================================================================== *)
(** ** JavaScript values *)
(* ===================================================================== *)

Module JS.

(** Numbers are restricted to the integers (ids, status codes, attempt
    counts); [JDate] is a [Date] object, as the driver returns for a
    timestamp column, carried as milliseconds since the epoch. *)
#[local] Unset Elimination Schemes.
Inductive jsval : Type :=
| JUndefined
| JNull
| JBool (b : bool)
| JNum (n : Z)
| JStr (s : string)
| JDate (t : Z)
| JArr (xs : list jsval)
| JObj (fields : list (string * jsval)).
#[local] Set Elimination Schemes.

(** [ToBoolean]: what [!v] and [v || w] test. *)
Definition truthy (v : jsval) : bool :=
  match v with
  | JUndefined | JNull => false
  | JBool b => b
  | JNum n => negb (n =? 0)
  | JStr s => negb (String.eqb s "")
  | JDate _ | JArr _ | JObj _ => true
  end.

(** [v || w] *)
Definition js_or (v w : jsval) : jsval := if truthy v then v else w.

Fixpoint assoc {A : Type} (k : string) (l : list (string * A)) : option A :=
  match l with
  | [] => None
  | (k', v) :: l' => if String.eqb k k' then Some v else assoc k l'
  end.

(** [o.k] for a data property [k]; a missing property reads as
    [undefined], and so does a property of a primitive or of an array. *)
Definition get_prop (o : jsval) (k : string) : jsval :=
  match o with
  | JObj fields => match assoc k fields with Some v => v | None => JUndefined end
  | _ => JUndefined
  end.

(** Thrown values: an [Error] with its [name] and [message]. *)
Record exn : Type := Exn { exn_name : string; exn_message : string }.

End JS.
Import JS.

(* ===================================================================== *)
(** ** The service *)
(* ===================================================================== *)

Module Service.

(** *** Pool configuration ([db.js], [new Pool({...})]) *)

(** [process.env]: a variable is unset or holds a string. *)
Definition environment : Type := string -> option string.

(** [process.env.K || dflt]: an unset or empty variable gives the default. *)
Definition env_or (env : environment) (k dflt : string) : string :=
  match env k with
  | Some v => if String.eqb v "" then dflt else v
  | None => dflt
  end.

(** The port is either the literal 5432 or [Number(s)] of the variable's
    text; the conversion itself is left symbolic. *)
Inductive port_number : Type :=
| PortLit (n : Z)
| NumberOf (s : string).

Record pool_config : Type := PoolConfig {
  host : string;
  port : port_number;
  user : string;
  password : string;
  database : string;
  max : Z
}.

Definition pool (env : environment) : pool_config :=
  {| host := env_or env "POSTGRES_HOST" "db";
     port := match env "POSTGRES_PORT" with
             | Some v => if String.eqb v "" then PortLit 5432 else NumberOf v
             | None => PortLit 5432
             end;
     user := env_or env "POSTGRES_USER" "syvora";
     password := env_or env "POSTGRES_PASSWORD" "syvora_pass";
     database := env_or env "POSTGRES_DB" "syvoradb";
     max := 5 |}.

(** *** Waiting for a connection *)

(** Modelled from the spec: what happens at the pool, seen from outside
    the [pg] library (which is not under src/): requests arrive, and
    operations in flight complete. *)
Inductive pool_event : Type :=
| Arrive (r : nat)     (* request [r] asks for a connection *)
| Complete.            (* an operation in flight hands its connection back *)

Record pool_state : Type := PoolState {
  in_flight : nat;        (* operations holding a connection *)
  waiting : list nat      (* requests queued for one, oldest first *)
}.

Definition idle_pool : pool_state := {| in_flight := 0; waiting := [] |}.

(** Modelled from the spec: the acquisition discipline of the pool
    object, which is the [pg] library's [Pool] and not under src/.  The
    pool's capacity bounds the operations in flight; a request beyond it
    queues for an available connection rather than opening a new one,
    and there is no timeout on the wait. *)
Definition pool_step (capacity : Z) (st : pool_state) (ev : pool_event)
    : pool_state :=
  match ev with
  | Arrive r =>
      if Z.of_nat (in_flight st) <? capacity
      then {| in_flight := S (in_flight st); waiting := waiting st |}
      else {| in_flight := in_flight st; waiting := waiting st ++ [r] |}
  | Complete =>
      match in_flight st, waiting st with
      | O, _ => st
      | S _, _ :: rest => {| in_flight := in_flight st; waiting := rest |}
      | S n, [] => {| in_flight := n; waiting := [] |}
      end
  end.

Definition pool_run (capacity : Z) (evs : list pool_event) (st : pool_state)
    : pool_state :=
  fold_left (pool_step capacity) evs st.

(** *** Responses, metrics, the process log *)

Inductive payload : Type :=
| Json (v : jsval)          (* res.json(v) *)
| Text (s : string)         (* res.end(s) *)
| NoBody                    (* res.send() *)
| ErrorPage (e : exn).      (* the page Express renders for an error *)

Record response : Type := Response { status : Z; body : payload }.

(** The label set of one observation of [http_request_duration_seconds];
    the observed value (elapsed wall-clock seconds) is not modelled. *)
Record labels : Type := Labels {
  l_method : string;
  l_route : string;
  l_code : Z
}.

Inductive event : Type :=
| EvQuery (text : string) (params : list jsval) (failure : option exn)
| EvLog (msg : string) (args : list jsval)     (* console.log *)
| EvError (e : exn)                            (* console.error *)
| EvSleep (ms : Z).                            (* setTimeout(r, ms) *)

Record qresult : Type := QResult { rows : list jsval; rowCount : Z }.

Record request : Type := Request {
  method : string;
  path : string;
  params : list (string * string);
  req_body : jsval;
  route : option string
}.

(** [req.params.id] *)
Definition param (req : request) (k : string) : jsval :=
  match assoc k (params req) with Some s => JStr s | None => JUndefined end.

Definition createTable : string := "
  CREATE TABLE IF NOT EXISTS items (
    id SERIAL PRIMARY KEY,
    name TEXT NOT NULL,
    description TEXT,
    created_at TIMESTAMP DEFAULT CURRENT_TIMESTAMP
  );
  ".

(** The statements the handlers send. *)
Definition sql_list : string := "SELECT * FROM items ORDER BY id".
Definition sql_get : string := "SELECT * FROM items WHERE id=$1".
Definition sql_insert : string :=
  "INSERT INTO items(name, description) VALUES($1, $2) RETURNING *".
Definition sql_update : string :=
  "UPDATE items SET name=$1, description=$2 WHERE id=$3 RETURNING *".
Definition sql_delete : string := "DELETE FROM items WHERE id=$1".

Definition db_error : payload := Json (JObj [("error", JStr "db error")]).
Definition not_found : payload := Json (JObj [("error", JStr "not found")]).
Definition name_required : payload := Json (JObj [("error", JStr "name required")]).

(** Passes the start-up loop can still make when its counter is [tries]. *)
Definition passes_left (tries : Z) : nat := Z.to_nat (12 - tries).
Arguments passes_left : simpl never.

Section Program.

(** The store behind the pool: its state, what one statement does to it
    ([pool.query] resolves with a result or rejects with an error), and
    how it changes while the process sleeps. *)
Context {DB : Type}.
Variable query : string -> list jsval -> DB -> (exn + qresult) * DB.
Variable elapse : Z -> DB -> DB.

Record world : Type := World {
  store : DB;
  histogram : list labels;
  trace : list event
}.

Definition emit (e : event) (w : world) : world :=
  {| store := store w; histogram := histogram w; trace := trace w ++ [e] |}.

(** Computations that read and write the world and may throw. *)
Definition M (A : Type) : Type := world -> (exn + A) * world.

Definition ret {A} (a : A) : M A := fun w => (inr a, w).
Definition throw {A} (e : exn) : M A := fun w => (inl e, w).
Definition bind {A B} (m : M A) (k : A -> M B) : M B :=
  fun w => match m w with
           | (inr a, w') => k a w'
           | (inl e, w') => (inl e, w')
           end.
Definition try_catch {A} (m : M A) (h : exn -> M A) : M A :=
  fun w => match m w with
           | (inr a, w') => (inr a, w')
           | (inl e, w') => h e w'
           end.

Notation "x <- m ;; k" := (bind m (fun x => k))
  (at level 61, m at next level, right associativity).
Notation "m ;;; k" := (bind m (fun _ => k))
  (at level 61, right associativity).

Definition console_log (msg : string) (args : list jsval) : M unit :=
  fun w => (inr tt, emit (EvLog msg args) w).
Definition console_error (e : exn) : M unit :=
  fun w => (inr tt, emit (EvError e) w).
Definition sleep (ms : Z) : M unit :=
  fun w => (inr tt,
            emit (EvSleep ms)
              {| store := elapse ms (store w);
                 histogram := histogram w; trace := trace w |}).
Definition observe (l : labels) : M unit :=
  fun w => (inr tt,
            {| store := store w;
               histogram := histogram w ++ [l]; trace := trace w |}).

(** [db.query(text, params)] *)
Definition db_query (text : string) (ps : list jsval) : M qresult :=
  fun w =>
    let '(r, s) := query text ps (store w) in
    let w' := {| store := s; histogram := histogram w; trace := trace w |} in
    match r with
    | inr res => (inr res, emit (EvQuery text ps None) w')
    | inl e => (inl e, emit (EvQuery text ps (Some e)) w')
    end.

(** [db.init()] *)
Definition db_init : M unit :=
  db_query createTable [] ;;; ret tt.

(** [const { name, description } = req.body] throws on [undefined] and
    [null]. *)
Definition destructure (b : jsval) : M (jsval * jsval) :=
  match b with
  | JUndefined | JNull =>
      throw (Exn "TypeError" "Cannot destructure property 'name' of 'req.body'")
  | _ => ret (get_prop b "name", get_prop b "description")
  end.

Definition json (code : Z) (v : jsval) : response :=
  {| status := code; body := Json v |}.

(** [rows[0]] *)
Definition first_row (r : qresult) : jsval := nth 0 (rows r) JUndefined.

Definition on_db_error (e : exn) : M response :=
  console_error e ;;; ret {| status := 500; body := db_error |}.

(** *** CRUD endpoints *)

Definition get_items (req : request) : M response :=
  try_catch
    (r <- db_query sql_list [] ;;
     ret (json 200 (JArr (rows r))))
    on_db_error.

Definition get_item (req : request) : M response :=
  try_catch
    (r <- db_query sql_get [param req "id"] ;;
     if (Z.of_nat (List.length (rows r)) =? 0)
     then ret {| status := 404; body := not_found |}
     else ret (json 200 (first_row r)))
    on_db_error.

Definition post_item (req : request) : M response :=
  try_catch
    (nd <- destructure (req_body req) ;;
     let '(name, description) := nd in
     if negb (truthy name)
     then ret {| status := 400; body := name_required |}
     else
       r <- db_query sql_insert [name; js_or description JNull] ;;
       ret (json 201 (first_row r)))
    on_db_error.

Definition put_item (req : request) : M response :=
  try_catch
    (nd <- destructure (req_body req) ;;
     let '(name, description) := nd in
     r <- db_query sql_update [name; description; param req "id"] ;;
     if (Z.of_nat (List.length (rows r)) =? 0)
     then ret {| status := 404; body := not_found |}
     else ret (json 200 (first_row r)))
    on_db_error.

Definition delete_item (req : request) : M response :=
  try_catch
    (r <- db_query sql_delete [param req "id"] ;;
     if (rowCount r =? 0)
     then ret {| status := 404; body := not_found |}
     else ret {| status := 204; body := NoBody |})
    on_db_error.

Definition get_healthz (req : request) : M response :=
  ret (json 200 (JObj [("status", JStr "ok")])).

(** *** DB init *)

(** One pass through the body of the [while]: [true] is the [break] of
    the [try] branch, [false] the end of the [catch] branch.  The counter
    is local to the loop, so the [catch] branch works on [tries + 1] and
    the loop below carries the increment on. *)
Definition attempt (tries : Z) : M bool :=
  try_catch
    (db_init ;;; console_log "DB initialized" [] ;;; ret true)
    (fun err =>
       console_log "Waiting for DB to be ready... attempt" [JNum (tries + 1)] ;;;
       sleep 2000 ;;;
       ret false).

(** [while (tries < 12) { ... }], returning the final value of [tries];
    the number of passes still allowed decreases with every pass. *)
Equations? init_loop (tries : Z) (w : world) : (exn + Z) * world
  by wf (passes_left tries) lt :=
  init_loop tries w with Z_lt_dec tries 12 := {
    | right _ := (inr tries, w);
    | left _ with attempt tries w := {
        | (inr true, w') := (inr tries, w');
        | (inr false, w') := init_loop (tries + 1) w';
        | (inl e, w') := (inl e, w') } }.
Proof. unfold passes_left. lia. Qed.

Definition startup : M Z := init_loop 0.

(** *** Metrics endpoint and timing middleware *)

(** [client.register.metrics()] renders the registry or throws. *)
Variable render_metrics : list labels -> exn + string.

(** What [res.end(ex)] throws when handed an [Error] instead of a
    string or a buffer. *)
Definition invalid_chunk : exn :=
  Exn "TypeError"
      "The chunk argument must be of type string or an instance of Buffer or Uint8Array. Received an instance of Error".

(** In the [catch] branch [res.status(500).end(ex)] passes the error
    object itself to [res.end], which throws: nothing is sent and the
    handler's promise rejects. *)
Definition get_metrics (req : request) : M response :=
  fun w =>
    match render_metrics (histogram w) with
    | inr txt => (inr {| status := 200; body := Text txt |}, w)
    | inl ex => (inl invalid_chunk, w)
    end.

(** A ['finish'] listener runs when the response has been sent; it sees
    the request object as it is by then, with [req.route] set by the
    router if a route matched. *)
Definition listener : Type := request -> response -> M unit.

(** The callback the timing middleware registers:
    [end({ method, route: req.route ? req.route.path : req.path, code })]. *)
Definition timing_finish : listener :=
  fun req res =>
    observe {| l_method := method req;
               l_route := match route req with
                          | Some pattern => pattern
                          | None => path req
                          end;
               l_code := status res |}.

(** *** The application stack *)

(** What [bodyParser.json()] makes of the request entity: the value it
    stores in [req.body], or the error it passes on, with the status
    that error carries. *)
Inductive parsed_body : Type :=
| Parsed (v : jsval)
| Rejected (err : exn) (code : Z).

Record incoming : Type := Incoming {
  in_method : string;
  in_path : string;
  in_body : parsed_body
}.

Inductive middleware : Type := Helmet | BodyParserJson | Morgan | Timing.

Inductive layer : Type :=
| Use (mw : middleware)                                      (* app.use(mw) *)
| Route (verb pattern : string) (h : request -> M response). (* app.verb(pattern, h) *)

(** Layers in the order [index.js] registers them. *)
Definition app : list layer :=
  [ Use Helmet;
    Use BodyParserJson;
    Use Morgan;
    Route "GET" "/metrics" get_metrics;
    Use Timing;
    Route "GET" "/items" get_items;
    Route "GET" "/items/:id" get_item;
    Route "POST" "/items" post_item;
    Route "PUT" "/items/:id" put_item;
    Route "DELETE" "/items/:id" delete_item;
    Route "GET" "/healthz" get_healthz ].

(** The router's path matcher (pattern, then request path), giving the
    captured parameters, and the reply Express sends when no layer has
    answered. *)
Variable match_route : string -> string -> option (list (string * string)).
Variable final_response : request -> response.

(** A route registered for GET also answers HEAD. *)
Definition handles (verb m : string) : bool :=
  String.eqb m verb || (String.eqb m "HEAD" && String.eqb verb "GET").

Inductive next : Type :=
| Next (req : request) (ls : list listener)   (* next() *)
| NextErr (err : exn) (code : Z).             (* next(err) *)

(** [helmet] and [morgan] always pass the request on (response headers and
    the access log are outside the model). *)
Definition run_middleware (mw : middleware) (inc : incoming)
    (req : request) (ls : list listener) : next :=
  match mw with
  | Helmet | Morgan => Next req ls
  | BodyParserJson =>
      match in_body inc with
      | Parsed v =>
          Next {| method := method req; path := path req; params := params req;
                  req_body := v; route := route req |} ls
      | Rejected err code => NextErr err code
      end
  | Timing => Next req (ls ++ [timing_finish])
  end.

(** Express walks the layers in order.  An error skips every remaining
    layer: the final handler writes it to [console.error] (as it does
    unless the process runs with NODE_ENV=test) and answers with the
    error's status and an error page.  A route whose verb and path match
    sets [req.params] and [req.route] and runs its handler, which ends
    the response; if the handler throws instead, no response is produced
    here. *)
Fixpoint dispatch (stack : list layer) (inc : incoming) (req : request)
    (ls : list listener) : M (response * request * list listener) :=
  match stack with
  | [] => ret (final_response req, req, ls)
  | Use mw :: rest =>
      match run_middleware mw inc req ls with
      | Next req' ls' => dispatch rest inc req' ls'
      | NextErr err code =>
          console_error err ;;;
          ret ({| status := code; body := ErrorPage err |}, req, ls)
      end
  | Route verb pattern h :: rest =>
      if handles verb (method req) then
        match match_route pattern (path req) with
        | Some ps =>
            let req' := {| method := method req; path := path req; params := ps;
                           req_body := req_body req; route := Some pattern |} in
            res <- h req' ;;
            ret (res, req', ls)
        | None => dispatch rest inc req ls
        end
      else dispatch rest inc req ls
  end.

Fixpoint finish (ls : list listener) (req : request) (res : response) : M unit :=
  match ls with
  | [] => ret tt
  | l :: ls' => l req res ;;; finish ls' req res
  end.

(** One request through the application, from arrival to ['finish']. *)
Definition serve (inc : incoming) : M response :=
  out <- dispatch app inc
           {| method := in_method inc; path := in_path inc; params := [];
              req_body := JUndefined; route := None |} [] ;;
  let '(res, req, ls) := out in
  finish ls req res ;;;
  ret res.

End Program.

End Service.

(* ===================================================================== *)
(** ** Vocabulary for stating what a run did *)
(* ===================================================================== *)

Module Observations.

Import Service.

(** The five handlers of the [items] resource. *)
Inductive endpoint : Type := ListItems | GetItem | CreateItem | ReplaceItem | DeleteItem.

Definition items_handler {DB} (query : string -> list jsval -> DB -> (exn + qresult) * DB)
    (ep : endpoint) : request -> M response :=
  match ep with
  | ListItems => get_items query
  | GetItem => get_item query
  | CreateItem => post_item query
  | ReplaceItem => put_item query
  | DeleteItem => delete_item query
  end.

(** What a computation added to the process log. *)
Definition new_events {DB} (w w' : @world DB) : list event :=
  skipn (List.length (trace w)) (trace w').

(** A request body is present: [req.body] is neither [undefined] nor
    [null]. *)
Definition has_body (req : request) : Prop :=
  req_body req <> JUndefined /\ req_body req <> JNull.

(** The three log entries of a pass of the start-up loop whose
    [db.init()] was rejected with [e], [i] being the counter after the
    increment. *)
Definition failed_round (i : Z) (e : exn) : list event :=
  [ EvQuery createTable [] (Some e);
    EvLog "Waiting for DB to be ready... attempt" [JNum i];
    EvSleep 2000 ].

(** Consecutive failed passes, starting with the counter at [tries]. *)
Fixpoint failed_rounds (tries : Z) (errs : list exn) : list event :=
  match errs with
  | [] => []
  | e :: errs' => failed_round (tries + 1) e ++ failed_rounds (tries + 1) errs'
  end.

(** The log entries of the pass whose [db.init()] succeeds. *)
Definition success_round : list event :=
  [ EvQuery createTable [] None; EvLog "DB initialized" [] ].

Definition is_init_call (ev : event) : bool :=
  match ev with
  | EvQuery text _ _ => String.eqb text createTable
  | _ => false
  end.

(** How often [db.init()] was called in a stretch of the log. *)
Definition init_calls (tr : list event) : nat :=
  List.length (filter is_init_call tr).

(** The pattern of the first route of a stack that answers a request
    with method [m] and path [p], if any does. *)
Fixpoint first_match {DB}
    (match_route : string -> string -> option (list (string * string)))
    (stack : list (@layer DB)) (m p : string) : option string :=
  match stack with
  | [] => None
  | Use _ :: rest => first_match match_route rest m p
  | Route verb pattern _ :: rest =>
      if handles verb m then
        match match_route pattern p with
        | Some _ => Some pattern
        | None => first_match match_route rest m p
        end
      else first_match match_route rest m p
  end.

(** A handler that always answers and leaves the histogram alone. *)
Definition plain {DB} (h : request -> @M DB response) : Prop :=
  forall req w, exists res w', h req w = (inr res, w') /\ histogram w' = histogram w.

Definition plain_route {DB} (l : @layer DB) : Prop :=
  match l with
  | Route _ _ h => plain h
  | Use _ => False
  end.

(** The request is answered by the /metrics route, which sits in front
    of the timing middleware. *)
Definition scrape
    (match_route : string -> string -> option (list (string * string)))
    (inc : incoming) : bool :=
  handles "GET" (in_method inc) &&
  match match_route "/metrics" (in_path inc) with Some _ => true | None => false end.

(** *** Further vocabulary *)

Definition is_query (ev : event) : bool :=
  match ev with EvQuery _ _ _ => true | _ => false end.

(** How many statements were sent to the store in a stretch of the log. *)
Definition statements (tr : list event) : nat :=
  List.length (filter is_query tr).

(** The statuses each handler has a [res.status] / [res.json] for. *)
Definition statuses (ep : endpoint) : list Z :=
  match ep with
  | ListItems => [200; 500]
  | GetItem => [200; 404; 500]
  | CreateItem => [201; 400; 500]
  | ReplaceItem => [200; 404; 500]
  | DeleteItem => [204; 404; 500]
  end.

(** The environment with every variable that holds the empty string
    unset. *)
Definition unset_empty (env : environment) : environment :=
  fun k => match env k with
           | Some v => if String.eqb v "" then None else Some v
           | None => None
           end.

Definition is_route {DB} (l : @layer DB) : Prop :=
  match l with
  | Route _ _ _ => True
  | Use _ => False
  end.

End Observations.

(* ===================================================================== *)
(** ** The [items] table *)
(* ===================================================================== *)

Module Pg.

Import Service.

(** A row of [items], as [createTable] declares it. *)
Record item : Type := Item {
  id : Z;
  name : string;
  description : option string;   (* nullable *)
  created_at : Z
}.

(** The table with the sequence behind its [SERIAL] column ([seq] is the
    last value handed out). *)
Record table : Type := Table { items : list item; seq : Z }.

Definition empty_table : table := {| items := []; seq := 0 |}.

(** The server: unreachable for another [down_for] milliseconds, with or
    without the table, and its clock. *)
Record pg : Type := PgState {
  down_for : Z;
  tbl : option table;
  clock : Z
}.

(** [SERIAL] is a 32-bit integer column. *)
Definition int4_max : Z := 2147483647.

(** A row as the driver hands it to the handler. *)
Definition item_row (it : item) : jsval :=
  JObj [ ("id", JNum (id it));
         ("name", JStr (name it));
         ("description", match description it with
                         | Some d => JStr d
                         | None => JNull
                         end);
         ("created_at", JDate (created_at it)) ].

(** [ORDER BY id] *)
Fixpoint insert_by_id (x : item) (l : list item) : list item :=
  match l with
  | [] => [x]
  | y :: l' => if id x <=? id y then x :: l else y :: insert_by_id x l'
  end.

Fixpoint order_by_id (l : list item) : list item :=
  match l with
  | [] => []
  | x :: l' => insert_by_id x (order_by_id l')
  end.

Definition by_id (a b : item) : Prop := id a <= id b.

Definition refused : exn := Exn "Error" "connect ECONNREFUSED".
Definition no_relation : exn := Exn "error" "relation items does not exist".
Definition bad_integer : exn := Exn "error" "invalid input syntax for type integer".
Definition null_name : exn :=
  Exn "error" "null value in column name violates not-null constraint".
Definition seq_exhausted : exn :=
  Exn "error" "nextval: reached maximum value of sequence".
Definition bad_statement : exn := Exn "error" "statement not understood".
Definition bad_text : exn :=
  Exn "error" "invalid byte sequence for encoding UTF8: 0x00".
Definition duplicate_key : exn :=
  Exn "error" "duplicate key value violates unique constraint items_pkey".

(** Strings stand for the UTF-8 text of JavaScript strings; the one
    character such a text can hold that a TEXT value cannot is U+0000. *)
Fixpoint has_nul (s : string) : bool :=
  match s with
  | EmptyString => false
  | String c s' => Ascii.eqb c Ascii.zero || has_nul s'
  end.

Section Store.

(** The server's reading of an integer written as text, and the driver's
    text form of the parameters that are neither strings nor null. *)
Variable int4in : string -> option Z.
Variable serialize : jsval -> string.

(** The driver turns a parameter into text, or into NULL. *)
Definition prepareValue (v : jsval) : option string :=
  match v with
  | JUndefined | JNull => None
  | JStr s => Some s
  | JBool b => Some (if b then "true" else "false")
  | JNum _ | JDate _ | JArr _ | JObj _ => Some (serialize v)
  end.

(** A parameter bound to a TEXT column: NULL, a text, or a bind error if
    the text holds U+0000. *)
Definition text_param (v : jsval) : exn + option string :=
  match prepareValue v with
  | None => inr None
  | Some txt => if has_nul txt then inl bad_text else inr (Some txt)
  end.

(** The parameter can be bound to a TEXT column. *)
Definition binds (v : jsval) : bool :=
  match text_param v with
  | inr _ => true
  | inl _ => false
  end.

(** [WHERE id=$1]: NULL equals no id. *)
Definition has_id (key : option Z) (it : item) : bool :=
  match key with
  | Some n => id it =? n
  | None => false
  end.

(** The parameter compared with [id]: NULL, an integer, or a bind error. *)
Definition id_param (v : jsval) : exn + option Z :=
  match prepareValue v with
  | None => inr None
  | Some txt =>
      match int4in txt with
      | Some n => inr (Some n)
      | None => inl bad_integer
      end
  end.

Definition answer (l : list item) : qresult :=
  {| rows := map item_row l; rowCount := Z.of_nat (List.length l) |}.

Definition set_fields (n : string) (d : option string) (it : item) : item :=
  {| id := id it; name := n; description := d; created_at := created_at it |}.

(** One of the five statements against the table, at time [t_now].
    Parameters are bound in order before the statement runs, so a bind
    error leaves table and sequence alone; once an INSERT runs, the
    sequence moves on even if the row is then refused. *)
Definition run_statement (text : string) (ps : list jsval) (t_now : Z)
    (t : table) : (exn + qresult) * table :=
  if String.eqb text sql_list then
    (inr (answer (order_by_id (items t))), t)
  else if String.eqb text sql_get then
    match ps with
    | [p] =>
        match id_param p with
        | inl e => (inl e, t)
        | inr key => (inr (answer (filter (has_id key) (items t))), t)
        end
    | _ => (inl bad_statement, t)
    end
  else if String.eqb text sql_insert then
    match ps with
    | [pn; pd] =>
        match text_param pn, text_param pd with
        | inl e, _ => (inl e, t)
        | inr _, inl e => (inl e, t)
        | inr n, inr d =>
            if int4_max <=? seq t then (inl seq_exhausted, t)
            else
              let k := seq t + 1 in
              match n with
              | None => (inl null_name, {| items := items t; seq := k |})
              | Some nm =>
                  if existsb (has_id (Some k)) (items t)
                  then (inl duplicate_key, {| items := items t; seq := k |})
                  else
                    let it := {| id := k; name := nm; description := d;
                                 created_at := t_now |} in
                    (inr (answer [it]), {| items := items t ++ [it]; seq := k |})
              end
        end
    | _ => (inl bad_statement, t)
    end
  else if String.eqb text sql_update then
    match ps with
    | [pn; pd; pid] =>
        match text_param pn, text_param pd, id_param pid with
        | inl e, _, _ => (inl e, t)
        | inr _, inl e, _ => (inl e, t)
        | inr _, inr _, inl e => (inl e, t)
        | inr n, inr d, inr key =>
            match filter (has_id key) (items t), n with
            | [], _ => (inr (answer []), t)
            | _ :: _, None => (inl null_name, t)
            | hit, Some nm =>
                let upd := set_fields nm d in
                (inr (answer (map upd hit)),
                 {| items := map (fun it => if has_id key it then upd it else it)
                               (items t);
                    seq := seq t |})
            end
        end
    | _ => (inl bad_statement, t)
    end
  else if String.eqb text sql_delete then
    match ps with
    | [p] =>
        match id_param p with
        | inl e => (inl e, t)
        | inr key =>
            (inr {| rows := [];
                    rowCount :=
                      Z.of_nat (List.length (filter (has_id key) (items t))) |},
             {| items := filter (fun it => negb (has_id key it)) (items t);
                seq := seq t |})
        end
    | _ => (inl bad_statement, t)
    end
  else (inl bad_statement, t).

(** [pool.query]: refused while the server is down; [createTable] makes
    the table unless it exists; anything else needs the table. *)
Definition pg_query (text : string) (ps : list jsval) (st : pg)
    : (exn + qresult) * pg :=
  if 0 <? down_for st then (inl refused, st)
  else if String.eqb text createTable then
    (inr {| rows := []; rowCount := 0 |},
     {| down_for := down_for st;
        tbl := Some (match tbl st with Some t => t | None => empty_table end);
        clock := clock st |})
  else
    match tbl st with
    | None => (inl no_relation, st)
    | Some t =>
        let '(r, t') := run_statement text ps (clock st) t in
        (r, {| down_for := down_for st; tbl := Some t'; clock := clock st |})
    end.

(** Time passing brings the server closer to accepting connections. *)
Definition pg_elapse (ms : Z) (st : pg) : pg :=
  {| down_for := Z.max 0 (down_for st - ms);
     tbl := tbl st;
     clock := clock st + ms |}.

(** The table's key discipline: ids are distinct and none is ahead of the
    sequence. *)
Definition table_ok (t : table) : Prop :=
  NoDup (map id (items t)) /\ Forall (fun it => id it <= seq t) (items t).

(** The server answers and the table [t] exists. *)
Definition serving (st : pg) (t : table) : Prop :=
  down_for st <= 0 /\ tbl st = Some t.

(** A series of statements run one after the other against the table,
    whatever each one answers. *)
Fixpoint run_script (script : list (string * list jsval)) (t_now : Z)
    (t : table) : table :=
  match script with
  | [] => t
  | (text, ps) :: rest =>
      run_script rest t_now (snd (run_statement text ps t_now t))
  end.

End Store.

End Pg.

(* ===================================================================== *)
(** ** A concrete deployment, for running the service on examples *)
(* ===================================================================== *)

Module Deployment.

Import Service Pg.

(** Signed decimal text within the 32-bit range. *)
Definition dec_int4in (s : string) : option Z :=
  match NilZero.int_of_string s with
  | Some d =>
      let n := Z.of_int d in
      if (- int4_max - 1 <=? n) && (n <=? int4_max) then Some n else None
  | None => None
  end.

(** None of the examples binds a parameter that needs the driver's
    serializer. *)
Definition opaque_text (v : jsval) : string := "[object]".

Fixpoint split_path (s : string) : list string :=
  match s with
  | EmptyString => [""]
  | String c s' =>
      if Ascii.eqb c "/" then "" :: split_path s'
      else match split_path s' with
           | seg :: segs => String c seg :: segs
           | [] => [String c ""]
           end
  end.

Definition lower (c : ascii) : ascii :=
  let n := nat_of_ascii c in
  if (65 <=? n)%nat && (n <=? 90)%nat then ascii_of_nat (n + 32) else c.

Fixpoint lowercase (s : string) : string :=
  match s with
  | EmptyString => EmptyString
  | String c s' => String (lower c) (lowercase s')
  end.

(** Segment-wise matching as the router does it for the patterns of this
    application: literal segments compare without regard to case, a
    [:name] segment captures one non-empty segment, and one trailing
    slash is tolerated. *)
Fixpoint match_segments (pat segs : list string) : option (list (string * string)) :=
  match pat, segs with
  | [], [] => Some []
  | [], [""] => Some []
  | p :: pat', s :: segs' =>
      match p with
      | String ":" key =>
          if String.eqb s "" then None
          else option_map (cons (key, s)) (match_segments pat' segs')
      | _ =>
          if String.eqb (lowercase p) (lowercase s)
          then match_segments pat' segs'
          else None
      end
  | _, _ => None
  end.

Definition path_match (pattern path : string) : option (list (string * string)) :=
  match_segments (split_path pattern) (split_path path).

Definition no_metrics_text (h : list labels) : exn + string := inr "".

Definition not_routed (req : request) : response :=
  {| status := 404; body := NoBody |}.

Definition query := pg_query dec_int4in opaque_text.

(** A server that is up, with an empty table, at time [t0]. *)
Definition fresh (t0 : Z) : pg :=
  {| down_for := 0; tbl := Some empty_table; clock := t0 |}.

(** A server that starts accepting connections in [ms] milliseconds and
    has no table yet. *)
Definition booting (ms : Z) : pg :=
  {| down_for := ms; tbl := None; clock := 0 |}.

Definition boot (st : pg) : world :=
  {| store := st; histogram := []; trace := [] |}.

Definition run_app (inc : incoming) : M response :=
  serve query no_metrics_text path_match not_routed inc.

Definition call (verb url : string) (b : jsval) : incoming :=
  {| in_method := verb; in_path := url; in_body := Parsed b |}.

Definition on_item (key : string) (b : jsval) : request :=
  {| method := ""; path := ""; params := [("id", key)];
     req_body := b; route := None |}.

(** A table whose rows are not stored in id order. *)
Definition shelf : table :=
  {| items := [ {| id := 3; name := "bolt"; description := None; created_at := 30 |};
                {| id := 1; name := "nut"; description := Some "M6"; created_at := 10 |};
                {| id := 2; name := "washer"; description := None; created_at := 20 |} ];
     seq := 3 |}.

Definition stocked : world :=
  boot {| down_for := 0; tbl := Some shelf; clock := 40 |}.

Definition widget : jsval :=
  JObj [("name", JStr "widget"); ("description", JStr "a widget")].

(** A payload whose description is the empty string. *)
Definition blank_widget : jsval :=
  JObj [("name", JStr "widget"); ("description", JStr "")].

End Deployment.

(* ===================================================================== *)
(** ** Properties of the handlers, for any store *)
(* ===================================================================== *)

Module HandlerFacts.

Import Service Observations.

Lemma skipn_length_app {A} (l k : list A) : skipn (List.length l) (l ++ k) = k.
Proof. induction l as [|x l IH]; simpl; auto. Qed.

Lemma skipn_length_app2 {A} (l : list A) (x y : A) :
  skipn (List.length l) ((l ++ [x]) ++ [y]) = [x; y].
Proof. rewrite <- app_assoc. apply skipn_length_app. Qed.

Ltac run :=
  unfold items_handler, get_items, get_item, post_item, put_item, delete_item,
    on_db_error, try_catch, bind, ret, throw, db_query, console_error,
    destructure, new_events, emit, json; simpl.

Section AnyStore.

Context {DB : Type}.
Variable query : string -> list jsval -> DB -> (exn + qresult) * DB.

(** Every handler answers: nothing escapes its [try]/[catch]. *)
Lemma items_handler_answers (ep : endpoint) (req : request) (w : world) :
  exists res w', items_handler query ep req w = (inr res, w').
Proof.
  destruct ep; run.
  - destruct (query _ _ _) as [[?|?] ?]; eauto.
  - destruct (query _ _ _) as [[?|?] ?]; [eauto|].
    destruct (_ =? 0); eauto.
  - destruct (req_body req); simpl; eauto;
      match goal with |- context [truthy ?v] => destruct (truthy v); simpl; eauto end;
      destruct (query _ _ _) as [[?|?] ?]; eauto.
  - destruct (req_body req); simpl; eauto;
      destruct (query _ _ _) as [[?|?] ?]; eauto;
      destruct (_ =? 0); eauto.
  - destruct (query _ _ _) as [[?|?] ?]; [eauto|].
    destruct (_ =? 0); eauto.
Qed.

(** C2. A POST whose body carries no [name], or the empty string as
    [name], is answered 400 [{error: "name required"}] and leaves the
    world as it was: no statement reaches the store, the store state is
    unchanged and nothing is logged. *)
Theorem post_without_name_rejected (req : request) (w : world)
    (fields : list (string * jsval)) :
  req_body req = JObj fields ->
  assoc "name" fields = None \/ assoc "name" fields = Some (JStr "") ->
  post_item query req w = (inr {| status := 400; body := name_required |}, w).
Proof.
  intros Hb Hn. run. rewrite Hb. simpl.
  destruct Hn as [-> | ->]; reflexivity.
Qed.

(** C5. Whichever of the five handlers runs, if its statement is
    rejected by the store, whatever the error is, the response is 500
    with the body [{error: "db error"}]; the error itself only goes to
    [console.error]. *)
Theorem store_failure_is_500 (ep : endpoint) (req : request) (w w' : world)
    (r : exn + response) (text : string) (ps : list jsval) (e : exn) :
  items_handler query ep req w = (r, w') ->
  In (EvQuery text ps (Some e)) (new_events w w') ->
  r = inr {| status := 500; body := db_error |} /\
  In (EvError e) (new_events w w').
Proof.
  destruct ep; run;
    try (destruct (req_body req); simpl);
    try match goal with |- context [truthy ?v] => destruct (truthy v); simpl end;
    try (destruct (query _ _ _) as [[?|?] ?]; try destruct (_ =? 0));
    intros [= <- <-]; simpl;
    rewrite ?skipn_length_app2, ?skipn_length_app, ?skipn_all; simpl;
    intros Hin;
    repeat (destruct Hin as [Hin|Hin];
            [try discriminate; try (injection Hin as <- <- <-; now auto)|]);
    contradiction.
Qed.



(** C6. PUT checks nothing about [name]: it never answers 400, and as
    soon as a body is present the first thing it does is send the UPDATE
    with [name] and [description] exactly as they were read from the
    body, an absent or empty [name] included. *)
Theorem put_never_validates (req : request) (w : world) :
  exists res w',
    put_item query req w = (inr res, w') /\
    status res <> 400 /\
    (has_body req ->
     exists failure rest,
       new_events w w' =
       EvQuery sql_update
         [get_prop (req_body req) "name";
          get_prop (req_body req) "description";
          param req "id"] failure :: rest).
Proof.
  unfold has_body. run.
  destruct (req_body req); simpl;
    try (destruct (query _ _ _) as [[?|?] ?]; try destruct (_ =? 0));
    do 2 eexists; (split; [reflexivity|]); simpl;
    (split; [discriminate|]); intros [H1 H2]; try congruence;
    rewrite ?skipn_length_app2, ?skipn_length_app; eauto.
Qed.

End AnyStore.

End HandlerFacts.

(* ===================================================================== *)
(** ** The pool configuration *)
(* ===================================================================== *)

Module PoolFacts.

Import Service.

(** The limit is a constant of the program, not an environment
    parameter. *)
Theorem pool_max_is_fixed (env : environment) : max (pool env) = 5.
Proof. reflexivity. Qed.

(** What every reachable state of the pool satisfies: no more operations
    in flight than the capacity, and nobody waits while there is room. *)
Lemma pool_run_invariant (capacity : Z) (evs : list pool_event)
    (st : pool_state) :
  0 < capacity ->
  Z.of_nat (in_flight st) <= capacity ->
  (waiting st <> [] -> Z.of_nat (in_flight st) = capacity) ->
  Z.of_nat (in_flight (pool_run capacity evs st)) <= capacity /\
  (waiting (pool_run capacity evs st) <> [] ->
   Z.of_nat (in_flight (pool_run capacity evs st)) = capacity).
Proof.
  intros Hcap. revert st. unfold pool_run.
  induction evs as [|ev evs IH]; intros st Hle Hw; simpl; [auto|].
  destruct st as [n q]. simpl in Hle, Hw.
  apply IH; destruct ev as [r|]; simpl.
  - destruct (Z.ltb_spec (Z.of_nat n) capacity); simpl; lia.
  - destruct n as [|n]; [exact Hle|]. destruct q; simpl; lia.
  - destruct (Z.ltb_spec (Z.of_nat n) capacity); simpl.
    + intros Hne. specialize (Hw Hne). lia.
    + intros _. lia.
  - destruct n as [|n]; [exact Hw|].
    destruct q as [|r rest]; simpl.
    + intros Hne. now contradiction Hne.
    + intros _. apply Hw. discriminate.
Qed.

(** C9, as the code has it. The pool is created with a limit of 5
    connections whatever the environment holds; the environment supplies
    host, port, user, password and database name only.  With that limit,
    however requests arrive and complete, at most 5 operations are in
    flight, a request arriving while 5 are in flight is put at the end of
    the queue and opens nothing, and requests wait only while all 5 are
    in flight. *)
Theorem pool_capped_at_five (env : environment) (evs : list pool_event) :
  max (pool env) = 5 /\
  host (pool env) = env_or env "POSTGRES_HOST" "db" /\
  port (pool env) =
    match env "POSTGRES_PORT" with
    | Some v => if String.eqb v "" then PortLit 5432 else NumberOf v
    | None => PortLit 5432
    end /\
  user (pool env) = env_or env "POSTGRES_USER" "syvora" /\
  password (pool env) = env_or env "POSTGRES_PASSWORD" "syvora_pass" /\
  database (pool env) = env_or env "POSTGRES_DB" "syvoradb" /\
  let st := pool_run (max (pool env)) evs idle_pool in
  (in_flight st <= 5)%nat /\
  (waiting st <> [] -> in_flight st = 5%nat) /\
  (forall r,
     in_flight st = 5%nat ->
     pool_step (max (pool env)) st (Arrive r) =
     {| in_flight := 5; waiting := waiting st ++ [r] |}).
Proof.
  repeat (split; [reflexivity|]).
  destruct (pool_run_invariant 5 evs idle_pool) as [Hle Hw];
    [lia | simpl; lia | intros H; now contradiction H |].
  change (max (pool env)) with 5. cbv zeta.
  split; [lia|]. split; [intros H; specialize (Hw H); lia|].
  intros r Hfull. unfold pool_step. rewrite Hfull. reflexivity.
Qed.

(** The connection parameters that do come from the environment. *)
Lemma pool_from_environment (env : environment) :
  host (pool env) = env_or env "POSTGRES_HOST" "db" /\
  user (pool env) = env_or env "POSTGRES_USER" "syvora" /\
  password (pool env) = env_or env "POSTGRES_PASSWORD" "syvora_pass" /\
  database (pool env) = env_or env "POSTGRES_DB" "syvoradb" /\
  (forall v, env "POSTGRES_PORT" = Some v -> v <> "" ->
             port (pool env) = NumberOf v) /\
  (env "POSTGRES_PORT" = None -> port (pool env) = PortLit 5432).
Proof.
  repeat split; simpl.
  - intros v -> Hv. now destruct (String.eqb_spec v "").
  - now intros ->.
Qed.

(** With every environment variable set to 20 the limit is still 5. *)
Lemma pool_max_ignores_environment :
  max (pool (fun _ => Some "20")) = 5 /\
  max (pool (fun _ => Some "20")) <> 20 /\
  max (pool (fun _ => None)) = max (pool (fun _ => Some "20")).
Proof. repeat split. discriminate. Qed.

End PoolFacts.

(* ===================================================================== *)
(** ** The start-up loop, for any store *)
(* ===================================================================== *)

Module StartupFacts.

Import Service Observations HandlerFacts.

Lemma init_calls_app (l k : list event) :
  init_calls (l ++ k) = (init_calls l + init_calls k)%nat.
Proof. unfold init_calls. now rewrite filter_app, length_app. Qed.

Lemma init_calls_failed_rounds (tries : Z) (errs : list exn) :
  init_calls (failed_rounds tries errs) = List.length errs.
Proof.
  revert tries. induction errs as [|e errs IH]; intros tries; [reflexivity|].
  cbn [failed_rounds]. rewrite init_calls_app, IH. reflexivity.
Qed.

Section AnyStore.

Context {DB : Type}.
Variable query : string -> list jsval -> DB -> (exn + qresult) * DB.
Variable elapse : Z -> DB -> DB.

Lemma init_loop_unfold (tries : Z) (w : world) :
  init_loop query elapse tries w =
  if Z_lt_dec tries 12 then
    match attempt query elapse tries w with
    | (inr true, w') => (inr tries, w')
    | (inr false, w') => init_loop query elapse (tries + 1) w'
    | (inl e, w') => (inl e, w')
    end
  else (inr tries, w).
Proof.
  simp init_loop.
  destruct (Z_lt_dec tries 12); simpl; [|reflexivity].
  destruct (attempt query elapse tries w) as [[e|[|]] w']; reflexivity.
Qed.

(** One pass either succeeds and logs it, or fails, logs the attempt
    number and sleeps two seconds. *)
Lemma attempt_run (tries : Z) (w : world) :
  attempt query elapse tries w =
  match query createTable [] (store w) with
  | (inr _, s) =>
      (inr true,
       {| store := s; histogram := histogram w;
          trace := trace w ++ success_round |})
  | (inl e, s) =>
      (inr false,
       {| store := elapse 2000 s; histogram := histogram w;
          trace := trace w ++ failed_round (tries + 1) e |})
  end.
Proof.
  unfold attempt, db_init, try_catch, bind, db_query, console_log, sleep, ret, emit.
  destruct (query createTable [] (store w)) as [[e|r] s]; simpl;
    rewrite <- ?app_assoc; reflexivity.
Qed.

Lemma init_loop_shape (k : nat) :
  forall (tries : Z) (w : world),
    passes_left tries = k ->
    exists (errs : list exn) (w' : world),
      init_loop query elapse tries w =
        (inr (tries + Z.of_nat (List.length errs)), w') /\
      (List.length errs <= k)%nat /\
      histogram w' = histogram w /\
      trace w' =
        (trace w ++ failed_rounds tries errs ++
         (if tries + Z.of_nat (List.length errs) <? 12 then success_round else []))%list.
Proof.
  induction k as [|k IH]; intros tries w Hk; unfold passes_left in Hk;
    rewrite init_loop_unfold; destruct (Z_lt_dec tries 12) as [Hlt|Hge];
    try lia.
  - exists [], w. simpl. rewrite Z.add_0_r.
    replace (tries <? 12) with false by (symmetry; apply Z.ltb_ge; lia).
    rewrite app_nil_r. auto.
  - rewrite attempt_run.
    destruct (query createTable [] (store w)) as [[e|r] s].
    + destruct (IH (tries + 1)
                  {| store := elapse 2000 s; histogram := histogram w;
                     trace := trace w ++ failed_round (tries + 1) e |})
        as (errs & w' & Hrun & Hlen & Hh & Htr).
      { unfold passes_left. lia. }
      exists (e :: errs), w'. simpl List.length.
      replace (tries + Z.of_nat (S (List.length errs)))
        with (tries + 1 + Z.of_nat (List.length errs)) by lia.
      repeat split; auto; [lia|].
      rewrite Htr. cbn [trace failed_rounds].
      rewrite <- !app_assoc. reflexivity.
    + exists []. eexists. simpl. rewrite Z.add_0_r.
      replace (tries <? 12) with true by (symmetry; apply Z.ltb_lt; lia).
      split; [reflexivity|]. repeat split; auto; lia.
Qed.

(** C4. The start-up loop always comes to an end and returns normally.
    Its log is a run of failed passes, each one a rejected [db.init()],
    the message with the incremented attempt number and a sleep of 2000
    ms, followed by one successful pass if fewer than 12 passes failed
    and by nothing at all after the 12th failure.  So [db.init()] is
    called at most 12 times, and never again after it has succeeded. *)
Theorem startup_retries_at_most_12 (w : world) :
  exists (errs : list exn) (w' : world),
    startup query elapse w = (inr (Z.of_nat (List.length errs)), w') /\
    (List.length errs <= 12)%nat /\
    new_events w w' =
      (failed_rounds 0 errs ++
       (if (List.length errs <? 12)%nat then success_round else []))%list /\
    (init_calls (new_events w w') <= 12)%nat.
Proof.
  destruct (init_loop_shape 12 0 w eq_refl) as (errs & w' & Hrun & Hlen & _ & Htr).
  exists errs, w'. simpl in Hrun.
  assert (Hev : new_events w w' =
                (failed_rounds 0 errs ++
                 (if (List.length errs <? 12)%nat then success_round else []))%list).
  { unfold new_events. rewrite Htr, skipn_length_app. simpl.
    destruct (Nat.ltb_spec (List.length errs) 12);
      [ replace (Z.of_nat (List.length errs) <? 12) with true
          by (symmetry; apply Z.ltb_lt; lia)
      | replace (Z.of_nat (List.length errs) <? 12) with false
          by (symmetry; apply Z.ltb_ge; lia) ]; reflexivity. }
  repeat split; auto.
  rewrite Hev, init_calls_app, init_calls_failed_rounds.
  destruct (Nat.ltb_spec (List.length errs) 12); simpl; unfold init_calls; simpl; lia.
Qed.

End AnyStore.

End StartupFacts.

(* ===================================================================== *)
(** ** The timing middleware in the application stack *)
(* ===================================================================== *)

Module TimingFacts.

Import Service Observations HandlerFacts.

Section AnyStore.

Context {DB : Type}.
Variable query : string -> list jsval -> DB -> (exn + qresult) * DB.
Variable render_metrics : list labels -> exn + string.
Variable match_route : string -> string -> option (list (string * string)).
Variable final_response : request -> response.

Lemma items_handler_plain (ep : endpoint) : plain (items_handler query ep).
Proof.
  intros req w. destruct ep; run;
    try (destruct (req_body req); simpl);
    try match goal with |- context [truthy ?v] => destruct (truthy v); simpl end;
    try (destruct (query _ _ _) as [[?|?] ?]; try destruct (_ =? 0));
    eauto.
Qed.

(** The /metrics handler never changes the world, whether it answers
    or throws. *)
Lemma get_metrics_run (req : request) (w : @world DB) :
  get_metrics render_metrics req w =
  (match render_metrics (histogram w) with
   | inr txt => inr {| status := 200; body := Text txt |}
   | inl _ => inl invalid_chunk
   end, w).
Proof. unfold get_metrics. destruct (render_metrics _); reflexivity. Qed.

Lemma get_healthz_plain : plain (@get_healthz DB).
Proof. intros req w. unfold get_healthz, ret. eauto. Qed.

(** Past the middleware, the first route that matches answers, and the
    request carries its pattern from then on. *)
Lemma dispatch_routes (stack : list (@layer DB)) :
  Forall plain_route stack ->
  forall inc req (ls : list (@listener DB)) (w : @world DB),
    route req = None ->
    exists res req' w',
      dispatch match_route final_response stack inc req ls w =
        (inr (res, req', ls), w') /\
      histogram w' = histogram w /\
      method req' = method req /\
      path req' = path req /\
      route req' = first_match match_route stack (method req) (path req).
Proof.
  induction 1 as [|l stack Hl _ IH]; intros inc req ls w Hr; simpl.
  - unfold ret. exists (final_response req), req, w. auto.
  - destruct l as [mw|verb pattern h]; [contradiction|]. simpl in Hl.
    destruct (handles verb (method req)); [|now apply IH].
    destruct (match_route pattern (path req)) as [ps|]; [|now apply IH].
    unfold bind, ret.
    destruct (Hl {| method := method req; path := path req; params := ps;
                    req_body := req_body req; route := Some pattern |} w)
      as (res & w' & -> & Hh).
    do 3 eexists. split; [reflexivity|]. auto.
Qed.

Lemma crud_routes_plain :
  Forall plain_route
    [ Route "GET" "/items" (get_items query);
      Route "GET" "/items/:id" (get_item query);
      Route "POST" "/items" (post_item query);
      Route "PUT" "/items/:id" (put_item query);
      Route "DELETE" "/items/:id" (delete_item query);
      Route "GET" "/healthz" get_healthz ].
Proof.
  repeat constructor; simpl.
  - apply (items_handler_plain ListItems).
  - apply (items_handler_plain GetItem).
  - apply (items_handler_plain CreateItem).
  - apply (items_handler_plain ReplaceItem).
  - apply (items_handler_plain DeleteItem).
  - apply get_healthz_plain.
Qed.

(** The layers in front of the CRUD routes: the JSON parser fills in
    [req.body], the /metrics route answers its own requests, and only
    what gets past it reaches the timing middleware. *)
Lemma dispatch_front (rest : list (@layer DB)) (inc : incoming) (req : request)
    (ls : list (@listener DB)) (w : @world DB) (v : jsval) :
  in_body inc = Parsed v ->
  let req1 := {| method := method req; path := path req; params := params req;
                 req_body := v; route := route req |} in
  dispatch match_route final_response
    (Use Helmet :: Use BodyParserJson :: Use Morgan ::
     Route "GET" "/metrics" (get_metrics render_metrics) :: Use Timing :: rest)
    inc req ls w =
  match (if handles "GET" (method req)
         then match_route "/metrics" (path req) else None)
  return (exn + response * request * list (@listener DB)) * @world DB with
  | Some ps =>
      bind (get_metrics render_metrics
              {| method := method req; path := path req; params := ps;
                 req_body := v; route := Some "/metrics" |})
           (fun res =>
              ret (res,
                   {| method := method req; path := path req; params := ps;
                      req_body := v; route := Some "/metrics" |}, ls)) w
  | None =>
      dispatch match_route final_response rest inc req1
        (ls ++ [timing_finish])%list w
  end.
Proof.
  intros Hb. simpl. rewrite Hb. simpl.
  destruct (handles "GET" (method req)); [|reflexivity].
  destruct (match_route "/metrics" (path req)); reflexivity.
Qed.

Lemma dispatch_rejected (stack : list (@layer DB)) (inc : incoming)
    (req : request) (ls : list (@listener DB)) (w : @world DB)
    (err : exn) (code : Z) :
  in_body inc = Rejected err code ->
  dispatch match_route final_response
    (Use Helmet :: Use BodyParserJson :: stack) inc req ls w =
  (inr ({| status := code; body := ErrorPage err |}, req, ls),
   emit (EvError err) w).
Proof. intros Hb. simpl. rewrite Hb. reflexivity. Qed.

(** A request answered by the /metrics route, or refused by the JSON
    parser, leaves the histogram as it was. *)
Lemma unobserved (inc : incoming) (w : world) :
  (exists v, in_body inc = Parsed v /\ scrape match_route inc = true) \/
  (exists err code, in_body inc = Rejected err code) ->
  histogram
    (snd (serve query render_metrics match_route final_response inc w)) =
  histogram w.
Proof.
  unfold serve, app, scrape, bind at 1.
  intros [(v & Hb & H)|(err & code & Hb)].
  - rewrite (dispatch_front _ _ _ _ _ _ Hb). simpl.
    apply andb_prop in H as [-> H].
    destruct (match_route "/metrics" (in_path inc)) as [ps|]; [|discriminate].
    unfold bind, ret. rewrite get_metrics_run.
    destruct (render_metrics (histogram w)); reflexivity.
  - rewrite (dispatch_rejected _ _ _ _ _ _ _ Hb). reflexivity.
Qed.

(** C8, as the code has it. For every request that the JSON parser lets
    through and that is not answered by the /metrics route, completing
    the response adds exactly one observation to the histogram, labelled
    with the request method, the pattern of the route that answered (the
    raw path if none did) and the status of the response. *)
Theorem timing_observes_once (inc : incoming) (w : world) (v : jsval) :
  in_body inc = Parsed v ->
  scrape match_route inc = false ->
  exists res w',
    serve query render_metrics match_route final_response inc w = (inr res, w') /\
    histogram w' =
      (histogram w ++
       [ {| l_method := in_method inc;
            l_route := match first_match match_route
                               (app query render_metrics)
                               (in_method inc) (in_path inc) with
                       | Some pattern => pattern
                       | None => in_path inc
                       end;
            l_code := status res |} ])%list.
Proof.
  intros Hb Hs. unfold scrape in Hs. unfold serve, app, bind at 1.
  rewrite (dispatch_front _ _ _ _ _ _ Hb).
  cbn [first_match method path app_nil_l List.app].
  assert (Hskip :
    (if handles "GET" (in_method inc)
     then match_route "/metrics" (in_path inc) else None) = None).
  { destruct (handles "GET" (in_method inc)); [|reflexivity].
    destruct (match_route "/metrics" (in_path inc)); [discriminate|reflexivity]. }
  rewrite Hskip.
  match goal with
  | |- context [dispatch _ _ ?stack inc ?req ?ls w] =>
      destruct (dispatch_routes stack crud_routes_plain inc req ls w eq_refl)
        as (res & req' & w' & -> & Hh & Hme & Hpa & Hro)
  end.
  cbn [first_match method path] in Hro.
  unfold bind, ret, timing_finish, observe; simpl.
  exists res; eexists; (split; [reflexivity|]); simpl.
  rewrite Hh, Hme, Hpa, Hro.
  destruct (handles "GET" (in_method inc)); [|reflexivity].
  destruct (match_route "/metrics" (in_path inc)); [discriminate|reflexivity].
Qed.

End AnyStore.

End TimingFacts.

(* ===================================================================== *)
(** ** Properties that depend on the table *)
(* ===================================================================== *)

Module PgFacts.

Import Service Observations Pg HandlerFacts.

Lemma insert_by_id_perm (x : item) (l : list item) :
  Permutation (insert_by_id x l) (x :: l).
Proof.
  induction l as [|y l IH]; simpl; [reflexivity|].
  destruct (id x <=? id y); [reflexivity|].
  rewrite IH. apply perm_swap.
Qed.

Lemma order_by_id_perm (l : list item) : Permutation (order_by_id l) l.
Proof.
  induction l as [|x l IH]; simpl; [reflexivity|].
  rewrite insert_by_id_perm. now constructor.
Qed.

Lemma insert_by_id_sorted (x : item) (l : list item) :
  StronglySorted by_id l -> StronglySorted by_id (insert_by_id x l).
Proof.
  induction 1 as [|y l Hs IH Hy]; simpl.
  - repeat constructor.
  - destruct (id x <=? id y) eqn:E.
    + apply Z.leb_le in E. constructor; [now constructor|].
      constructor; [exact E|].
      eapply Forall_impl; [|exact Hy]. unfold by_id. intros; lia.
    + apply Z.leb_gt in E. constructor; [exact IH|].
      eapply Permutation_Forall; [symmetry; apply insert_by_id_perm|].
      constructor; [unfold by_id; lia | exact Hy].
Qed.

Lemma order_by_id_sorted (l : list item) : StronglySorted by_id (order_by_id l).
Proof.
  induction l; simpl; [constructor | now apply insert_by_id_sorted].
Qed.

Lemma same_id_same_item (l : list item) (a b : item) :
  NoDup (map id l) -> In a l -> In b l -> id a = id b -> a = b.
Proof.
  induction l as [|x l IH]; simpl; [contradiction|].
  intros Hnd [->|Ha] [->|Hb] E; auto; inversion Hnd; subst.
  - exfalso. rewrite E in *. eauto using in_map.
  - exfalso. rewrite <- E in *. eauto using in_map.
  - auto.
Qed.

(** A list ordered by distinct ids is determined by its elements. *)
Lemma sorted_perm_unique (l1 l2 : list item) :
  StronglySorted by_id l1 -> StronglySorted by_id l2 ->
  Permutation l1 l2 -> NoDup (map id l1) -> l1 = l2.
Proof.
  revert l2. induction l1 as [|a l1 IH]; intros l2 S1 S2 P Hnd.
  - now apply Permutation_nil in P.
  - destruct l2 as [|b l2].
    { symmetry in P. now apply Permutation_nil in P. }
    apply StronglySorted_inv in S1 as [S1 A1].
    apply StronglySorted_inv in S2 as [S2 A2].
    assert (a = b) as <-.
    { assert (Ha : In a (b :: l2)) by (eapply Permutation_in; [exact P|now left]).
      assert (Hb : In b (a :: l1))
        by (eapply Permutation_in; [symmetry; exact P|now left]).
      destruct Ha as [->|Ha]; [reflexivity|].
      destruct Hb as [->|Hb]; [reflexivity|].
      rewrite Forall_forall in A1, A2.
      apply (same_id_same_item (a :: l1)); simpl; auto.
      specialize (A1 _ Hb). specialize (A2 _ Ha). unfold by_id in *. lia. }
    f_equal. apply IH; auto.
    + now apply Permutation_cons_inv in P.
    + now inversion Hnd.
Qed.

Lemma ids_after_filter (f : item -> bool) (l : list item) :
  NoDup (map id l) -> NoDup (map id (filter f l)).
Proof.
  induction l as [|x l IH]; simpl; intros H; [constructor|].
  inversion H as [|? ? Hx Hl]; subst.
  destruct (f x); simpl; auto.
  constructor; auto.
  intros Hin. apply Hx. apply in_map_iff in Hin as (y & Hy & Hin).
  apply filter_In in Hin as [Hin _]. rewrite <- Hy. now apply in_map.
Qed.

Lemma ids_after_update (key : option Z) (n : string) (d : option string)
    (l : list item) :
  map id (map (fun it => if has_id key it then set_fields n d it else it) l) =
  map id l.
Proof.
  induction l as [|x l IH]; simpl; [reflexivity|].
  rewrite IH. now destruct (has_id key x).
Qed.

Section Store.

Variable int4in : string -> option Z.
Variable serialize : jsval -> string.

(** No statement breaks the key discipline of the table. *)
Lemma run_statement_keeps_ok (text : string) (ps : list jsval) (t_now : Z)
    (t : table) :
  table_ok t -> table_ok (snd (run_statement int4in serialize text ps t_now t)).
Proof.
  intros [Hnd Hle]. unfold run_statement.
  destruct (String.eqb text sql_list); [split; assumption|].
  destruct (String.eqb text sql_get).
  { destruct ps as [|p [|? ?]]; try (split; assumption).
    destruct (id_param _ _ p); split; assumption. }
  destruct (String.eqb text sql_insert).
  { assert (Hbump : table_ok {| items := items t; seq := seq t + 1 |}).
    { split; simpl; [assumption|].
      eapply Forall_impl; [|exact Hle]. simpl. intros; lia. }
    destruct ps as [|pn [|pd [|? ?]]]; try (split; assumption).
    destruct (text_param serialize pn) as [e|n]; [split; assumption|].
    destruct (text_param serialize pd) as [e|d]; [split; assumption|].
    destruct (int4_max <=? seq t); [split; assumption|].
    destruct n as [nm|]; [|exact Hbump].
    destruct (existsb _ (items t)); [exact Hbump|].
    split; simpl.
    - rewrite map_app. apply NoDup_app; simpl; auto.
      + repeat constructor. intros [].
      + intros a Ha [Hnew|[]]. apply in_map_iff in Ha as (x & Hid & Hx).
        rewrite Forall_forall in Hle. specialize (Hle x Hx). simpl in Hle. lia.
    - apply Forall_app. split.
      + eapply Forall_impl; [|exact Hle]. simpl. intros; lia.
      + repeat constructor. simpl. lia. }
  destruct (String.eqb text sql_update).
  { destruct ps as [|pn [|pd [|pid [|? ?]]]]; try (split; assumption).
    destruct (text_param serialize pn) as [e|n]; [split; assumption|].
    destruct (text_param serialize pd) as [e|d]; [split; assumption|].
    destruct (id_param _ _ pid) as [e|key]; [split; assumption|].
    destruct (filter (has_id key) (items t)) as [|hit hits];
      [split; assumption|].
    destruct n as [nm|]; [|split; assumption].
    split; simpl.
    - now rewrite ids_after_update.
    - rewrite Forall_forall in *. intros x Hx.
      apply in_map_iff in Hx as (y & <- & Hy). specialize (Hle y Hy).
      now destruct (has_id key y). }
  destruct (String.eqb text sql_delete); [|split; assumption].
  destruct ps as [|p [|? ?]]; try (split; assumption).
  destruct (id_param _ _ p) as [e|key]; [split; assumption|].
  split; simpl.
  - now apply ids_after_filter.
  - rewrite Forall_forall in *. intros x Hx.
    apply filter_In in Hx as [Hx _]. auto.
Qed.

(** So every table the server can reach from an empty one keeps it. *)
Lemma pg_query_keeps_ok (text : string) (ps : list jsval) (st : pg) :
  (forall t, tbl st = Some t -> table_ok t) ->
  forall t', tbl (snd (pg_query int4in serialize text ps st)) = Some t' ->
             table_ok t'.
Proof.
  intros Hok t'. unfold pg_query.
  destruct (0 <? down_for st); [apply Hok|].
  destruct (String.eqb text createTable).
  - simpl. destruct (tbl st) as [t|] eqn:E; intros [= <-]; auto.
    split; simpl; constructor.
  - destruct (tbl st) as [t|] eqn:E; [|simpl; rewrite E; discriminate].
    pose proof (run_statement_keeps_ok text ps (clock st) t (Hok t eq_refl)).
    destruct run_statement. simpl in *. now intros [= <-].
Qed.

#[local] Abbreviation query := (pg_query int4in serialize).

Lemma query_serving (text : string) (ps : list jsval) (st : pg) (t : table) :
  serving st t ->
  String.eqb text createTable = false ->
  query text ps st =
  (fst (run_statement int4in serialize text ps (clock st) t),
   {| down_for := down_for st;
      tbl := Some (snd (run_statement int4in serialize text ps (clock st) t));
      clock := clock st |}).
Proof.
  intros [Hup Ht] Hne. unfold pg_query.
  replace (0 <? down_for st) with false by (symmetry; apply Z.ltb_ge; exact Hup).
  rewrite Hne, Ht. now destruct run_statement.
Qed.

(** C7. Whenever the store answers, GET /items is a 200 whose body lists
    every row of the table exactly once, in ascending order of id; and
    two tables holding the same rows in different physical order give
    the same body. *)
Theorem list_is_ordered_by_id (req : request) (w : world) (t : table) :
  serving (store w) t ->
  exists l w',
    get_items query req w =
      (inr {| status := 200; body := Json (JArr (map item_row l)) |}, w') /\
    Permutation l (items t) /\
    StronglySorted by_id l /\
    (forall req2 w2 t2,
       serving (store w2) t2 ->
       Permutation (items t2) (items t) ->
       NoDup (map id (items t)) ->
       fst (get_items query req2 w2) =
       inr {| status := 200; body := Json (JArr (map item_row l)) |}).
Proof.
  intros Hs. exists (order_by_id (items t)).
  unfold get_items, try_catch, bind, db_query, ret, json.
  rewrite (query_serving sql_list [] _ _ Hs eq_refl). simpl.
  eexists. split; [reflexivity|].
  split; [apply order_by_id_perm|].
  split; [apply order_by_id_sorted|].
  intros req2 w2 t2 Hs2 P Hnd.
  unfold get_items, try_catch, bind, db_query, ret, json.
  rewrite (query_serving sql_list [] _ _ Hs2 eq_refl). simpl.
  assert (order_by_id (items t2) = order_by_id (items t)) as ->; [|reflexivity].
  apply sorted_perm_unique; auto using order_by_id_sorted.
  - rewrite !order_by_id_perm. exact P.
  - eapply Permutation_NoDup; [|exact Hnd].
    apply Permutation_map. rewrite order_by_id_perm, P. reflexivity.
Qed.

Lemma run_get (p : jsval) (t_now : Z) (t : table) :
  run_statement int4in serialize sql_get [p] t_now t =
  match id_param int4in serialize p with
  | inl e => (inl e, t)
  | inr key => (inr (answer (filter (has_id key) (items t))), t)
  end.
Proof. reflexivity. Qed.

Lemma text_param_str (txt : string) :
  has_nul txt = false -> text_param serialize (JStr txt) = inr (Some txt).
Proof. intros H. unfold text_param. simpl. now rewrite H. Qed.

Lemma binds_inv (v : jsval) :
  binds serialize v = true -> exists o, text_param serialize v = inr o.
Proof. unfold binds. destruct (text_param serialize v); [discriminate|eauto]. Qed.

Lemma no_row_ahead (t : table) :
  Forall (fun it => id it <= seq t) (items t) ->
  existsb (has_id (Some (seq t + 1))) (items t) = false.
Proof.
  intros H. destruct (existsb _ (items t)) eqn:E; [|reflexivity].
  apply existsb_exists in E as (x & Hx & Hid). simpl in Hid.
  apply Z.eqb_eq in Hid. rewrite Forall_forall in H. specialize (H x Hx). lia.
Qed.

Lemma run_insert (pn pd : jsval) (t_now : Z) (t : table)
    (nm : string) (d : option string) :
  seq t < int4_max ->
  Forall (fun it => id it <= seq t) (items t) ->
  text_param serialize pn = inr (Some nm) ->
  text_param serialize pd = inr d ->
  run_statement int4in serialize sql_insert [pn; pd] t_now t =
  let it := {| id := seq t + 1; name := nm; description := d;
               created_at := t_now |} in
  (inr (answer [it]), {| items := items t ++ [it]; seq := seq t + 1 |}).
Proof.
  intros H Hle Hn Hd. unfold run_statement.
  change (String.eqb sql_insert sql_list) with false.
  change (String.eqb sql_insert sql_get) with false.
  change (String.eqb sql_insert sql_insert) with true. cbv iota.
  rewrite Hn, Hd.
  replace (int4_max <=? seq t) with false by (symmetry; apply Z.leb_gt; exact H).
  rewrite (no_row_ahead t Hle). reflexivity.
Qed.

Lemma run_update_miss (pn pd pid : jsval) (t_now : Z) (t : table)
    (n d : option string) (key : option Z) :
  text_param serialize pn = inr n ->
  text_param serialize pd = inr d ->
  id_param int4in serialize pid = inr key ->
  filter (has_id key) (items t) = [] ->
  run_statement int4in serialize sql_update [pn; pd; pid] t_now t =
  (inr (answer []), t).
Proof.
  intros Hn Hd Hk Hf. unfold run_statement.
  change (String.eqb sql_update sql_list) with false.
  change (String.eqb sql_update sql_get) with false.
  change (String.eqb sql_update sql_insert) with false.
  change (String.eqb sql_update sql_update) with true. cbv iota.
  rewrite Hn, Hd, Hk, Hf. reflexivity.
Qed.

Lemma run_delete (p : jsval) (t_now : Z) (t : table) :
  run_statement int4in serialize sql_delete [p] t_now t =
  match id_param int4in serialize p with
  | inl e => (inl e, t)
  | inr key =>
      (inr {| rows := [];
              rowCount := Z.of_nat (List.length (filter (has_id key) (items t))) |},
       {| items := filter (fun it => negb (has_id key it)) (items t);
          seq := seq t |})
  end.
Proof. reflexivity. Qed.

Lemma id_param_text (key : string) (n : Z) :
  int4in key = Some n -> id_param int4in serialize (JStr key) = inr (Some n).
Proof. intros H. unfold id_param. simpl. now rewrite H. Qed.

Lemma filter_unknown_id (n : Z) (l : list item) :
  (forall it, In it l -> id it <> n) -> filter (has_id (Some n)) l = [].
Proof.
  induction l as [|x l IH]; simpl; intros H; [reflexivity|].
  destruct (id x =? n) eqn:E.
  - apply Z.eqb_eq in E. exfalso. eapply H; eauto.
  - apply IH. intros it Hit. apply H. now right.
Qed.

Lemma filter_new_id (k : Z) (l : list item) (it : item) :
  Forall (fun x => id x < k) l -> id it = k ->
  filter (has_id (Some k)) (l ++ [it]) = [it].
Proof.
  intros Hl Hk. rewrite filter_app. simpl.
  replace (id it =? k) with true by (symmetry; apply Z.eqb_eq; exact Hk).
  rewrite filter_unknown_id; [reflexivity|].
  rewrite Forall_forall in Hl. intros x Hx. specialize (Hl x Hx). lia.
Qed.

(** C3, as the code has it. Whenever the store answers, a path id that
    the store reads as an integer and that names no row of the table
    gets 404 [{error: "not found"}] from GET, from DELETE, and from PUT
    given a body whose [name] and [description] can be bound as text. *)
Theorem unknown_id_is_404 (req : request) (w : world) (t : table)
    (key : string) (n : Z) :
  serving (store w) t ->
  param req "id" = JStr key ->
  int4in key = Some n ->
  (forall it, In it (items t) -> id it <> n) ->
  fst (get_item query req w) = inr {| status := 404; body := not_found |} /\
  (has_body req ->
   binds serialize (get_prop (req_body req) "name") = true ->
   binds serialize (get_prop (req_body req) "description") = true ->
   fst (put_item query req w) = inr {| status := 404; body := not_found |}) /\
  fst (delete_item query req w) = inr {| status := 404; body := not_found |}.
Proof.
  intros Hs Hp Hk Hno.
  pose proof (id_param_text _ _ Hk) as Hid.
  pose proof (filter_unknown_id _ _ Hno) as Hf.
  repeat split.
  - unfold get_item, try_catch, bind, db_query, ret.
    rewrite (query_serving sql_get _ _ _ Hs eq_refl), Hp, run_get, Hid, Hf.
    reflexivity.
  - intros [Hu Hn] Hbn Hbd.
    apply binds_inv in Hbn as [on Hbn]. apply binds_inv in Hbd as [od Hbd].
    unfold put_item, try_catch, bind, db_query, ret, destructure.
    destruct (req_body req) eqn:Hb; try congruence; simpl;
      rewrite (query_serving sql_update _ _ _ Hs eq_refl), Hp,
        (run_update_miss _ _ _ _ _ _ _ _ Hbn Hbd Hid Hf); reflexivity.
  - unfold delete_item, try_catch, bind, db_query, ret.
    rewrite (query_serving sql_delete _ _ _ Hs eq_refl), Hp, run_delete, Hid, Hf.
    reflexivity.
Qed.

(** C10. A POST with a non-empty [name] and a falsy [description] (the
    empty string, [null], absent, ...) binds NULL for the description,
    whatever the store; and when the store takes the row (it answers, the
    name is a text it can hold, the sequence can still number a row), the
    row created and returned with the 201 has a null description. *)
Theorem falsy_description_is_null (req : request) (w : world) (t : table)
    (fields : list (string * jsval)) (n : string) :
  req_body req = JObj fields ->
  assoc "name" fields = Some (JStr n) ->
  n <> "" ->
  truthy (get_prop (req_body req) "description") = false ->
  (forall DB (q : string -> list jsval -> DB -> (exn + qresult) * DB) (w0 : world),
     exists failure,
       new_events w0 (snd (post_item q req w0)) =
       EvQuery sql_insert [JStr n; JNull] failure ::
       match failure with Some e => [EvError e] | None => [] end) /\
  (serving (store w) t ->
   table_ok t ->
   seq t < int4_max ->
   has_nul n = false ->
   let it := {| id := seq t + 1; name := n; description := None;
                created_at := clock (store w) |} in
   exists w',
     post_item query req w =
       (inr {| status := 201; body := Json (item_row it) |}, w') /\
     get_prop (item_row it) "description" = JNull /\
     new_events w w' = [EvQuery sql_insert [JStr n; JNull] None] /\
     tbl (store w') = Some {| items := items t ++ [it]; seq := seq t + 1 |}).
Proof.
  intros Hb Hn Hne Hd. split.
  - intros DB q w0.
    unfold post_item, try_catch, bind, db_query, ret, destructure, new_events,
      on_db_error, console_error, emit.
    rewrite Hb in *. simpl in *. rewrite Hn. simpl.
    replace (String.eqb n "") with false
      by (symmetry; apply String.eqb_neq; exact Hne).
    simpl. unfold js_or. rewrite Hd.
    destruct (q sql_insert [JStr n; JNull] (store w0)) as [[e|r] s0]; simpl.
    + exists (Some e). now rewrite skipn_length_app2.
    + exists None. now rewrite skipn_length_app.
  - intros Hs [_ Hok] Hseq Hnul it.
    unfold post_item, try_catch, bind, db_query, ret, destructure, new_events.
    rewrite Hb in *. simpl in *. rewrite Hn. simpl.
    replace (String.eqb n "") with false
      by (symmetry; apply String.eqb_neq; exact Hne).
    simpl. unfold js_or. rewrite Hd.
    rewrite (query_serving sql_insert _ _ _ Hs eq_refl),
      (run_insert (JStr n) JNull _ _ n None Hseq Hok (text_param_str n Hnul) eq_refl).
    simpl. eexists. split; [reflexivity|]. simpl.
    rewrite skipn_length_app. auto.
Qed.

(** C1, as the code has it. Whenever the store answers and can still
    number a row, a POST whose [name] is a non-empty string and whose
    [description] is absent, [null] or a string, both free of U+0000, is
    answered 201 with the created row; a GET for the id in that answer
    then returns the same row: its [name] is the posted one, its
    [description] is the posted one if that is a non-empty string and
    [null] otherwise, and [id] and [created_at] are the values the store
    assigned. *)
Theorem create_then_get (req : request) (w : world) (t : table)
    (fields : list (string * jsval)) (n : string) (d : jsval) :
  serving (store w) t ->
  table_ok t ->
  seq t < int4_max ->
  req_body req = JObj fields ->
  assoc "name" fields = Some (JStr n) ->
  n <> "" ->
  has_nul n = false ->
  get_prop (req_body req) "description" = d ->
  (d = JUndefined \/ d = JNull \/ exists s, d = JStr s /\ has_nul s = false) ->
  exists it w1,
    post_item query req w =
      (inr {| status := 201; body := Json (item_row it) |}, w1) /\
    get_prop (item_row it) "name" = JStr n /\
    get_prop (item_row it) "description" = js_or d JNull /\
    get_prop (item_row it) "id" = JNum (seq t + 1) /\
    get_prop (item_row it) "created_at" = JDate (clock (store w)) /\
    (forall req' key,
       param req' "id" = JStr key ->
       int4in key = Some (id it) ->
       exists w2,
         get_item query req' w1 =
           (inr {| status := 200; body := Json (item_row it) |}, w2)).
Proof.
  intros Hs [_ Hok] Hseq Hb Hn Hne Hnul Hd Hshape.
  assert (Hbind : text_param serialize (js_or d JNull) =
                  inr (prepareValue serialize (js_or d JNull))).
  { destruct Hshape as [->|[->|(s & -> & Hs0)]]; try reflexivity.
    unfold js_or. simpl. destruct (String.eqb s ""); simpl; [reflexivity|].
    now apply text_param_str. }
  exists {| id := seq t + 1; name := n;
            description := prepareValue serialize (js_or d JNull);
            created_at := clock (store w) |}.
  unfold post_item, try_catch, bind, db_query, ret, destructure.
  rewrite Hb in *. simpl in Hd. simpl. rewrite Hn, Hd. simpl.
  replace (String.eqb n "") with false
    by (symmetry; apply String.eqb_neq; exact Hne).
  simpl.
  rewrite (query_serving sql_insert _ _ _ Hs eq_refl),
    (run_insert _ _ _ _ n _ Hseq Hok (text_param_str n Hnul) Hbind).
  simpl. eexists. split; [reflexivity|].
  split; [reflexivity|].
  split.
  { destruct Hshape as [->|[->|(s & -> & _)]]; try reflexivity.
    unfold js_or. simpl. destruct (String.eqb s ""); reflexivity. }
  split; [reflexivity|]. split; [reflexivity|].
  intros req' key Hp Hk. simpl in Hk.
  unfold get_item, try_catch, bind, db_query, ret.
  assert (Hs' : serving
            {| down_for := down_for (store w);
               tbl := Some {| items := items t ++
                                [{| id := seq t + 1; name := n;
                                    description := prepareValue serialize (js_or d JNull);
                                    created_at := clock (store w) |}];
                              seq := seq t + 1 |};
               clock := clock (store w) |}
            {| items := items t ++
                 [{| id := seq t + 1; name := n;
                     description := prepareValue serialize (js_or d JNull);
                     created_at := clock (store w) |}];
               seq := seq t + 1 |}).
  { destruct Hs as [Hup _]. split; [exact Hup | reflexivity]. }
  simpl.
  rewrite (query_serving sql_get _ _ _ Hs' eq_refl), Hp, run_get,
    (id_param_text _ _ Hk).
  simpl. rewrite filter_new_id; [|
    eapply Forall_impl; [|exact Hok]; simpl; intros; lia | reflexivity].
  simpl. eexists. reflexivity.
Qed.

End Store.

End PgFacts.

(* ===================================================================== *)
(** ** The service on concrete requests *)
(* ===================================================================== *)

Module Scenarios.

Import Service Observations Pg Deployment.
Import HandlerFacts PoolFacts StartupFacts TimingFacts PgFacts.

(** The store comes up after five seconds: three attempts fail, the
    fourth creates the table. *)
Example startup_late_store :
  let '(r, w') := startup query pg_elapse (boot (booting 5000)) in
  r = inr 3 /\
  tbl (store w') = Some empty_table /\
  init_calls (trace w') = 4%nat.
Proof. vm_compute. repeat split. Qed.

(** The store never comes up: twelve attempts, twelve sleeps, and the
    loop returns. *)
Example startup_gives_up :
  let '(r, w') := startup query pg_elapse (boot (booting 3600000)) in
  r = inr 12 /\
  tbl (store w') = None /\
  init_calls (trace w') = 12%nat /\
  trace w' = failed_rounds 0 (repeat refused 12).
Proof. vm_compute. repeat split. Qed.

(** Create, replace, delete, then look the item up again. *)
Example widget_lifecycle :
  let w0 := boot (fresh 100) in
  let '(r1, w1) := run_app (call "POST" "/items" widget) w0 in
  let '(r2, w2) :=
    run_app (call "PUT" "/items/1"
               (JObj [("name", JStr "widget2"); ("description", JNull)])) w1 in
  let '(r3, w3) := run_app (call "DELETE" "/items/1" JUndefined) w2 in
  let '(r4, w4) := run_app (call "GET" "/items/1" JUndefined) w3 in
  r1 = inr {| status := 201;
              body := Json (JObj [("id", JNum 1); ("name", JStr "widget");
                                  ("description", JStr "a widget");
                                  ("created_at", JDate 100)]) |} /\
  r2 = inr {| status := 200;
              body := Json (JObj [("id", JNum 1); ("name", JStr "widget2");
                                  ("description", JNull);
                                  ("created_at", JDate 100)]) |} /\
  r3 = inr {| status := 204; body := NoBody |} /\
  r4 = inr {| status := 404; body := not_found |} /\
  histogram w4 =
    [ {| l_method := "POST"; l_route := "/items"; l_code := 201 |};
      {| l_method := "PUT"; l_route := "/items/:id"; l_code := 200 |};
      {| l_method := "DELETE"; l_route := "/items/:id"; l_code := 204 |};
      {| l_method := "GET"; l_route := "/items/:id"; l_code := 404 |} ].
Proof. vm_compute. repeat split. Qed.

(** With the store down a POST is a 500 and /healthz still a 200. *)
Example store_down :
  let w0 := boot (booting 5000) in
  fst (run_app (call "POST" "/items" widget) w0) =
    inr {| status := 500; body := db_error |} /\
  fst (run_app (call "GET" "/healthz" JUndefined) w0) =
    inr {| status := 200; body := Json (JObj [("status", JStr "ok")]) |}.
Proof. vm_compute. split; reflexivity. Qed.

(** PUT with an empty name on an existing row goes through. *)
Example put_empty_name :
  fst (put_item query (on_item "1" (JObj [("name", JStr "")])) stocked) =
  inr {| status := 200;
         body := Json (JObj [("id", JNum 1); ("name", JStr "");
                             ("description", JNull); ("created_at", JDate 10)]) |}.
Proof. reflexivity. Qed.

(** GET /items on [shelf]. *)
Example shelf_listing :
  fst (get_items query (on_item "" JUndefined) stocked) =
  inr {| status := 200;
         body := Json (JArr (map item_row
                   [ {| id := 1; name := "nut"; description := Some "M6"; created_at := 10 |};
                     {| id := 2; name := "washer"; description := None; created_at := 20 |};
                     {| id := 3; name := "bolt"; description := None; created_at := 30 |} ])) |}.
Proof. reflexivity. Qed.

(** *** C1 *)

(** C1 fails as stated: the posted description is the empty string, the
    item read back has [null]. *)
Lemma empty_description_not_returned :
  exists it w1 w2,
    post_item query (on_item "" blank_widget) (boot (fresh 0)) =
      (inr {| status := 201; body := Json it |}, w1) /\
    get_prop it "id" = JNum 1 /\
    get_item query (on_item "1" JUndefined) w1 =
      (inr {| status := 200; body := Json it |}, w2) /\
    get_prop blank_widget "description" = JStr "" /\
    get_prop it "description" = JNull /\
    get_prop it "description" <> get_prop blank_widget "description".
Proof. do 3 eexists. repeat split. discriminate. Qed.

Lemma create_then_get_witness :
  exists it w1,
    post_item query (on_item "" widget) stocked =
      (inr {| status := 201; body := Json (item_row it) |}, w1) /\
    get_prop (item_row it) "name" = JStr "widget" /\
    get_prop (item_row it) "description" = JStr "a widget" /\
    get_prop (item_row it) "id" = JNum 4 /\
    get_prop (item_row it) "created_at" = JDate 40 /\
    exists w2,
      get_item query (on_item "4" JUndefined) w1 =
        (inr {| status := 200; body := Json (item_row it) |}, w2).
Proof.
  destruct (create_then_get dec_int4in opaque_text (on_item "" widget) stocked shelf
              [("name", JStr "widget"); ("description", JStr "a widget")]
              "widget" (JStr "a widget"))
    as (it & w1 & Hpost & Hn & Hd & Hi & Hc & Hget).
  - split; [simpl; lia | reflexivity].
  - split; simpl.
    + repeat constructor; simpl; intuition discriminate.
    + repeat constructor; simpl; lia.
  - reflexivity.
  - reflexivity.
  - reflexivity.
  - discriminate.
  - reflexivity.
  - reflexivity.
  - right. right. eexists. split; reflexivity.
  - exists it, w1. repeat split; auto.
    apply (Hget (on_item "4" JUndefined) "4"); [reflexivity|].
    simpl in Hi. injection Hi as ->. reflexivity.
Defined.

(** A name holding U+0000 is refused by the store: the POST is a 500
    and no row is created. *)
Example nul_name_refused :
  let req := on_item "" (JObj [("name", JStr (String "a" (String Ascii.zero "b")))]) in
  fst (post_item query req stocked) = inr {| status := 500; body := db_error |} /\
  store (snd (post_item query req stocked)) = store stocked.
Proof. vm_compute. split; reflexivity. Qed.

(** *** C2 *)

Lemma post_without_name_rejected_witness :
  post_item query (on_item "" (JObj [("description", JStr "x")])) stocked =
    (inr {| status := 400; body := name_required |}, stocked) /\
  post_item query (on_item "" (JObj [("name", JStr "")])) stocked =
    (inr {| status := 400; body := name_required |}, stocked).
Proof.
  split.
  - apply (post_without_name_rejected query _ _ [("description", JStr "x")]);
      [reflexivity | left; reflexivity].
  - apply (post_without_name_rejected query _ _ [("name", JStr "")]);
      [reflexivity | right; reflexivity].
Defined.

(** *** C3 *)

(** C3 fails as stated: 2147483648 names no row and was never issued
    (the sequence stands at 3), yet GET, PUT and DELETE for it answer
    500, not 404: the store cannot read it as an id. *)
Lemma out_of_range_id_is_500 :
  (forall it, In it (items shelf) -> id it <> 2147483648) /\
  seq shelf < 2147483648 /\
  fst (get_item query (on_item "2147483648" widget) stocked) =
    inr {| status := 500; body := db_error |} /\
  fst (put_item query (on_item "2147483648" widget) stocked) =
    inr {| status := 500; body := db_error |} /\
  fst (delete_item query (on_item "2147483648" widget) stocked) =
    inr {| status := 500; body := db_error |}.
Proof.
  split; [simpl; intros it [<-|[<-|[<-|[]]]]; discriminate|].
  split; [reflexivity|]. vm_compute. repeat split.
Qed.

Lemma unknown_id_is_404_witness :
  fst (get_item query (on_item "7" widget) stocked) =
    inr {| status := 404; body := not_found |} /\
  fst (put_item query (on_item "7" widget) stocked) =
    inr {| status := 404; body := not_found |} /\
  fst (delete_item query (on_item "7" widget) stocked) =
    inr {| status := 404; body := not_found |}.
Proof.
  destruct (unknown_id_is_404 dec_int4in opaque_text (on_item "7" widget)
              stocked shelf "7" 7)
    as (Hget & Hput & Hdel).
  - split; [simpl; lia | reflexivity].
  - reflexivity.
  - reflexivity.
  - simpl. intros it [<-|[<-|[<-|[]]]]; discriminate.
  - split; [exact Hget|]. split; [|exact Hdel].
    apply Hput; [split; discriminate | reflexivity | reflexivity].
Defined.

(** *** C5 *)

Lemma store_failure_is_500_witness :
  fst (get_items query (on_item "" JUndefined) (boot (booting 5000))) =
    inr {| status := 500; body := db_error |} /\
  fst (post_item query (on_item "" widget) (boot (booting 5000))) =
    inr {| status := 500; body := db_error |}.
Proof.
  split.
  - destruct (get_items query (on_item "" JUndefined) (boot (booting 5000)))
      as [r w'] eqn:Hrun.
    refine (proj1 (store_failure_is_500 query ListItems _ _ w' r
                     sql_list [] refused Hrun _)).
    vm_compute in Hrun. injection Hrun as <- <-. left. reflexivity.
  - destruct (post_item query (on_item "" widget) (boot (booting 5000)))
      as [r w'] eqn:Hrun.
    refine (proj1 (store_failure_is_500 query CreateItem _ _ w' r
                     sql_insert [JStr "widget"; JStr "a widget"] refused Hrun _)).
    vm_compute in Hrun. injection Hrun as <- <-. left. reflexivity.
Defined.

(** *** C6 *)

Lemma put_never_validates_witness :
  exists res w' failure rest,
    put_item query (on_item "1" (JObj [("name", JStr "")])) stocked =
      (inr res, w') /\
    status res <> 400 /\
    new_events stocked w' =
      EvQuery sql_update [JStr ""; JUndefined; JStr "1"] failure :: rest.
Proof.
  destruct (put_never_validates query (on_item "1" (JObj [("name", JStr "")]))
              stocked) as (res & w' & Hrun & Hst & Hev).
  destruct Hev as (failure & rest & Hev); [split; discriminate|].
  exists res, w', failure, rest. auto.
Defined.

(** *** C7 *)

Lemma list_is_ordered_by_id_witness :
  exists l w',
    get_items query (on_item "" JUndefined) stocked =
      (inr {| status := 200; body := Json (JArr (map item_row l)) |}, w') /\
    Permutation l (items shelf) /\
    StronglySorted by_id l.
Proof.
  destruct (list_is_ordered_by_id dec_int4in opaque_text
              (on_item "" JUndefined) stocked shelf)
    as (l & w' & Hrun & Hperm & Hsorted & _).
  - split; [simpl; lia | reflexivity].
  - exists l, w'. auto.
Defined.

(** *** C8 *)

(** C8 fails as stated: a GET /metrics is answered, and nothing is
    observed for it. *)
Lemma scrape_not_observed :
  exists res w',
    run_app (call "GET" "/metrics" (JObj [])) (boot (fresh 0)) = (inr res, w') /\
    status res = 200 /\
    histogram w' = [].
Proof. do 2 eexists. repeat split. Qed.

Lemma timing_observes_once_witness :
  (exists res w',
     run_app (call "POST" "/items" widget) (boot (fresh 0)) = (inr res, w') /\
     histogram w' =
       [ {| l_method := "POST"; l_route := "/items"; l_code := status res |} ]) /\
  (exists res w',
     run_app (call "GET" "/nowhere" (JObj [])) (boot (fresh 0)) = (inr res, w') /\
     histogram w' =
       [ {| l_method := "GET"; l_route := "/nowhere"; l_code := status res |} ]).
Proof.
  split.
  - exact (timing_observes_once query no_metrics_text path_match not_routed
             (call "POST" "/items" widget) (boot (fresh 0)) widget eq_refl eq_refl).
  - exact (timing_observes_once query no_metrics_text path_match not_routed
             (call "GET" "/nowhere" (JObj [])) (boot (fresh 0)) (JObj [])
             eq_refl eq_refl).
Defined.

(** *** C10 *)

Lemma falsy_description_is_null_witness :
  exists w',
    post_item query (on_item "" blank_widget) stocked =
      (inr {| status := 201;
              body := Json (JObj [("id", JNum 4); ("name", JStr "widget");
                                  ("description", JNull);
                                  ("created_at", JDate 40)]) |}, w') /\
    new_events stocked w' = [EvQuery sql_insert [JStr "widget"; JNull] None].
Proof.
  destruct (falsy_description_is_null dec_int4in opaque_text
              (on_item "" blank_widget) stocked shelf
              [("name", JStr "widget"); ("description", JStr "")] "widget")
    as [_ Hpg].
  - reflexivity.
  - reflexivity.
  - discriminate.
  - reflexivity.
  - destruct Hpg as (w' & Hrun & _ & Hev & _).
    + split; [simpl; lia | reflexivity].
    + split; simpl.
      * repeat constructor; simpl; intuition discriminate.
      * repeat constructor; simpl; lia.
    + reflexivity.
    + reflexivity.
    + exists w'. split; [exact Hrun | exact Hev].
Defined.

End Scenarios.

(* ===================================================================== *)
(** ** Further properties of the handlers, for any store *)
(* ===================================================================== *)

Module HandlerLaws.

Import Service Observations HandlerFacts.

Ltac crunch :=
  unfold items_handler, get_items, get_item, post_item, put_item, delete_item,
    on_db_error, try_catch, bind, ret, throw, db_query, console_error,
    destructure, new_events, emit, json, statements; simpl.

Section AnyStore.

Context {DB : Type}.
Variable query : string -> list jsval -> DB -> (exn + qresult) * DB.

(** Each handler sends at most one statement per request. *)
Theorem one_statement_per_request (ep : endpoint) (req : request) (w : world) :
  (statements (new_events w (snd (items_handler query ep req w))) <= 1)%nat.
Proof.
  destruct ep; crunch;
    try (destruct (req_body req); simpl);
    try match goal with |- context [truthy ?v] => destruct (truthy v); simpl end;
    try (destruct (query _ _ _) as [[?|?] ?]; try destruct (_ =? 0));
    simpl; rewrite ?skipn_length_app2, ?skipn_length_app, ?skipn_all; simpl; lia.
Qed.

(** Each handler answers, and only with one of its own statuses. *)
Theorem handler_statuses (ep : endpoint) (req : request) (w : world) :
  exists res,
    fst (items_handler query ep req w) = inr res /\
    In (status res) (statuses ep).
Proof.
  destruct ep; crunch;
    try (destruct (req_body req); simpl);
    try match goal with |- context [truthy ?v] => destruct (truthy v); simpl end;
    try (destruct (query _ _ _) as [[?|?] ?]; try destruct (_ =? 0));
    simpl; eexists; (split; [reflexivity|]); simpl; auto.
Qed.

(** A handler answers 500 exactly when it has written an error to
    [console.error]. *)
Theorem error_logged_iff_500 (ep : endpoint) (req : request) (w : world) :
  exists res,
    fst (items_handler query ep req w) = inr res /\
    (status res = 500 <->
     exists e, In (EvError e) (new_events w (snd (items_handler query ep req w)))).
Proof.
  destruct ep; crunch;
    try (destruct (req_body req); simpl);
    try match goal with |- context [truthy ?v] => destruct (truthy v); simpl end;
    try (destruct (query _ _ _) as [[?|?] ?]; try destruct (_ =? 0));
    simpl; eexists; (split; [reflexivity|]); simpl;
    rewrite ?skipn_length_app2, ?skipn_length_app, ?skipn_all; simpl;
    (split;
     [ intros H; try discriminate H; eexists; eauto
     | intros [err He]; try reflexivity;
       repeat (destruct He as [He|He]; try discriminate He);
       try contradiction ]).
Qed.

(** With a body present, POST answers 400 exactly when [name] is falsy
    (absent, [null], the empty string, [0], [false]); and then nothing
    else has happened. *)
Theorem post_400_iff_falsy_name (req : request) (w : world) :
  has_body req ->
  exists res,
    fst (post_item query req w) = inr res /\
    (status res = 400 <-> truthy (get_prop (req_body req) "name") = false) /\
    (status res = 400 -> snd (post_item query req w) = w).
Proof.
  intros [Hu Hn]. crunch.
  destruct (req_body req); try congruence; simpl;
    try match goal with
        | |- context [truthy ?v] => destruct (truthy v) eqn:E; simpl
        end;
    try (destruct (query _ _ _) as [[?|?] ?]); simpl;
    eexists; (split; [reflexivity|]); simpl;
    (split; [split; intros H; try discriminate H; try reflexivity
            | intros H; try discriminate H; reflexivity]).
Qed.

(** With a truthy [name], POST sends exactly the INSERT, binding [name]
    as read and a description that is never falsy unless it is [null]. *)
Theorem post_sends_insert (req : request) (w : world) :
  has_body req ->
  truthy (get_prop (req_body req) "name") = true ->
  exists failure d,
    filter is_query (new_events w (snd (post_item query req w))) =
      [EvQuery sql_insert [get_prop (req_body req) "name"; d] failure] /\
    (d = JNull \/
     (truthy d = true /\ d = get_prop (req_body req) "description")).
Proof.
  intros [Hu Hn] Ht. crunch.
  destruct (req_body req); try congruence; simpl in *; try discriminate;
    rewrite Ht; simpl;
    destruct (query _ _ _) as [[?|?] ?]; simpl;
    rewrite ?skipn_length_app2, ?skipn_length_app; simpl;
    do 2 eexists; (split; [reflexivity|]); unfold js_or;
    match goal with |- context [truthy ?v] => destruct (truthy v) eqn:E end;
    auto.
Qed.

(** Without a body ([req.body] is [undefined] or [null]) POST and PUT
    answer 500 [{error: "db error"}] although no statement was sent:
    reading [name] off the body throws inside the [try]. *)
Theorem missing_body_is_500 (req : request) (w : world) :
  req_body req = JUndefined \/ req_body req = JNull ->
  let te := Exn "TypeError" "Cannot destructure property 'name' of 'req.body'" in
  post_item query req w =
    (inr {| status := 500; body := db_error |}, emit (EvError te) w) /\
  put_item query req w =
    (inr {| status := 500; body := db_error |}, emit (EvError te) w).
Proof.
  intros [H|H]; crunch; rewrite H; simpl; split; reflexivity.
Qed.

End AnyStore.

End HandlerLaws.

(* ===================================================================== *)
(** ** Further properties of the application stack *)
(* ===================================================================== *)

Module StackLaws.

Import Service Observations HandlerFacts TimingFacts.

Section AnyStore.

Context {DB : Type}.
Variable query : string -> list jsval -> DB -> (exn + qresult) * DB.
Variable render_metrics : list labels -> exn + string.
Variable match_route : string -> string -> option (list (string * string)).
Variable final_response : request -> response.

#[local] Abbreviation serve' :=
  (serve query render_metrics match_route final_response).

(** If no route of a stack answers, the request falls off its end. *)
Lemma dispatch_no_match (stack : list (@layer DB)) :
  Forall is_route stack ->
  forall inc req (ls : list (@listener DB)) (w : @world DB),
    first_match match_route stack (method req) (path req) = None ->
    dispatch match_route final_response stack inc req ls w =
    (inr (final_response req, req, ls), w).
Proof.
  induction 1 as [|l stack Hl _ IH]; intros inc req ls w Hm; simpl in *.
  - reflexivity.
  - destruct l as [mw|verb pattern h]; [contradiction|].
    destruct (handles verb (method req)); [|now apply IH].
    destruct (match_route pattern (path req)); [discriminate|now apply IH].
Qed.

(** A request the JSON parser refuses is answered with the parser's
    status and Express's error page.  No handler and no timing
    middleware runs: store and histogram are untouched, and the one
    thing added to the log is the error, written by the final handler. *)
Theorem rejected_body_stops (inc : incoming) (w : world) (err : exn) (code : Z) :
  in_body inc = Rejected err code ->
  serve' inc w =
  (inr {| status := code; body := ErrorPage err |}, emit (EvError err) w).
Proof.
  intros Hb. unfold serve, app, bind at 1.
  rewrite (dispatch_rejected match_route final_response _ _ _ _ _ _ _ Hb).
  reflexivity.
Qed.

(** A request answered by the /metrics route gets the rendered registry
    with a 200.  If rendering throws, the handler throws in turn (it
    hands the error object to [res.end]) and sends nothing.  Either way
    the world is left exactly as it was. *)
Theorem scrape_leaves_world (inc : incoming) (w : world) (v : jsval) :
  in_body inc = Parsed v ->
  scrape match_route inc = true ->
  serve' inc w =
  (match render_metrics (histogram w) with
   | inr txt => inr {| status := 200; body := Text txt |}
   | inl _ => inl invalid_chunk
   end, w).
Proof.
  intros Hb Hs. unfold scrape in Hs. apply andb_prop in Hs as [Hg Hm].
  unfold serve, app, bind at 1.
  rewrite (dispatch_front render_metrics match_route final_response _ _ _ _ _ _ Hb).
  simpl. rewrite Hg.
  destruct (match_route "/metrics" (in_path inc)); [|discriminate].
  unfold bind, ret. rewrite get_metrics_run.
  destruct (render_metrics (histogram w)); reflexivity.
Qed.

(** GET /healthz is a 200 [{status: "ok"}] whatever state the store is
    in: it sends no statement, leaves store and log untouched, and is
    observed under the route /healthz. *)
Theorem healthz_ignores_store (inc : incoming) (w : world) (v : jsval)
    (ps : list (string * string)) :
  in_body inc = Parsed v ->
  in_method inc = "GET" ->
  match_route "/metrics" (in_path inc) = None ->
  match_route "/items" (in_path inc) = None ->
  match_route "/items/:id" (in_path inc) = None ->
  match_route "/healthz" (in_path inc) = Some ps ->
  serve' inc w =
  (inr {| status := 200; body := Json (JObj [("status", JStr "ok")]) |},
   {| store := store w;
      histogram :=
        histogram w ++
        [ {| l_method := "GET"; l_route := "/healthz"; l_code := 200 |} ];
      trace := trace w |}).
Proof.
  intros Hb Hme H1 H2 H3 H4. unfold serve, app, bind at 1.
  rewrite (dispatch_front render_metrics match_route final_response _ _ _ _ _ _ Hb). simpl.
  rewrite Hme. simpl. rewrite H1, H2, H3, H4. reflexivity.
Qed.

(** A request that no route answers gets Express's own reply; nothing
    is sent to the store, and the observation carries the raw path. *)
Theorem unrouted_request (inc : incoming) (w : world) (v : jsval) :
  in_body inc = Parsed v ->
  first_match match_route (app query render_metrics)
    (in_method inc) (in_path inc) = None ->
  let req := {| method := in_method inc; path := in_path inc; params := [];
                req_body := v; route := None |} in
  serve' inc w =
  (inr (final_response req),
   {| store := store w;
      histogram :=
        histogram w ++
        [ {| l_method := in_method inc; l_route := in_path inc;
             l_code := status (final_response req) |} ];
      trace := trace w |}).
Proof.
  intros Hb Hm req. unfold serve, bind at 1.
  unfold app in *. cbn [first_match] in Hm.
  rewrite (dispatch_front render_metrics match_route final_response _ _ _ _ _ _ Hb). cbn [method path].
  assert (Hskip :
    (if handles "GET" (in_method inc)
     then match_route "/metrics" (in_path inc) else None) = None /\
    first_match match_route
      [ Route "GET" "/items" (get_items query);
        Route "GET" "/items/:id" (get_item query);
        Route "POST" "/items" (post_item query);
        Route "PUT" "/items/:id" (put_item query);
        Route "DELETE" "/items/:id" (delete_item query);
        Route "GET" "/healthz" get_healthz ]
      (in_method inc) (in_path inc) = None).
  { cbn [first_match].
    destruct (handles "GET" (in_method inc));
      [destruct (match_route "/metrics" (in_path inc)); [discriminate|]|];
      auto. }
  destruct Hskip as [-> Hcrud].
  rewrite dispatch_no_match; [reflexivity | repeat constructor | exact Hcrud].
Qed.

(** The three ways a request can go through the stack. *)
Lemma serve_cases (inc : incoming) (w : world) :
  (exists err code,
     serve' inc w =
     (inr {| status := code; body := ErrorPage err |}, emit (EvError err) w)) \/
  (scrape match_route inc = true /\
   serve' inc w =
   (match render_metrics (histogram w) with
    | inr txt => inr {| status := 200; body := Text txt |}
    | inl _ => inl invalid_chunk
    end, w)) \/
  (exists res w',
     serve' inc w = (inr res, w') /\
     List.length (histogram w') = (List.length (histogram w) + 1)%nat).
Proof.
  assert (Hroutes : forall v,
    in_body inc = Parsed v ->
    (if handles "GET" (in_method inc)
     then match_route "/metrics" (in_path inc) else None) = None ->
    exists res w',
      serve' inc w = (inr res, w') /\
      List.length (histogram w') = (List.length (histogram w) + 1)%nat).
  { intros v Hb Hskip. unfold serve, app, bind at 1.
    rewrite (dispatch_front render_metrics match_route final_response
               _ _ _ _ _ _ Hb).
    cbn [method path]. rewrite Hskip.
    match goal with
    | |- context [dispatch _ _ ?stack inc ?req ?ls w] =>
        destruct (dispatch_routes match_route final_response stack
                    (crud_routes_plain query) inc req ls w eq_refl)
          as (res & req' & w' & -> & Hh & _)
    end.
    unfold bind, ret, timing_finish, observe; simpl.
    do 2 eexists. split; [reflexivity|]. simpl.
    rewrite length_app, Hh. reflexivity. }
  destruct (in_body inc) as [v|err code] eqn:Hb.
  - right. unfold scrape.
    destruct (handles "GET" (in_method inc)) eqn:Hg; cbn [andb];
      [destruct (match_route "/metrics" (in_path inc)) as [ps|] eqn:Hm|].
    + left. split; [reflexivity|].
      unfold serve, app, bind at 1.
      rewrite (dispatch_front render_metrics match_route final_response
                 _ _ _ _ _ _ Hb).
      cbn [method path]. rewrite Hg, Hm.
      unfold bind, ret. rewrite get_metrics_run.
      destruct (render_metrics (histogram w)); reflexivity.
    + right. exact (Hroutes v eq_refl eq_refl).
    + right. exact (Hroutes v eq_refl eq_refl).
  - left. exists err, code. unfold serve, app, bind at 1.
    rewrite (dispatch_rejected match_route final_response _ _ _ _ _ _ _ Hb).
    reflexivity.
Qed.

(** The application answers every request but one kind: a request
    answered by the /metrics route while rendering the registry fails.
    Then the handler throws and the world is left as it was.  In every
    case a request adds at most one observation to the histogram. *)
Theorem serve_throws_only_on_scrape (inc : incoming) (w : world) :
  (List.length
     (histogram (snd (serve' inc w))) <= List.length (histogram w) + 1)%nat /\
  ((exists res, fst (serve' inc w) = inr res) \/
   (fst (serve' inc w) = inl invalid_chunk /\
    snd (serve' inc w) = w /\
    scrape match_route inc = true /\
    exists ex, render_metrics (histogram w) = inl ex)).
Proof.
  destruct (serve_cases inc w)
    as [(err & code & ->)|[(Hs & ->)|(res & w' & -> & Hh)]]; simpl.
  - split; [lia | eauto].
  - split; [lia|].
    destruct (render_metrics (histogram w)) as [ex|txt]; [right|left]; eauto 6.
  - split; [lia | eauto].
Qed.

End AnyStore.

End StackLaws.

(* ===================================================================== *)
(** ** Further properties: pool, start-up, table *)
(* ===================================================================== *)

Module PoolLaws.

Import Service Observations.

(** A connection variable set to the empty string counts as unset: the
    pool is configured as if it were absent. *)
Theorem empty_variable_is_unset (env : environment) :
  pool env = pool (unset_empty env).
Proof.
  unfold pool, env_or, unset_empty.
  destruct (env "POSTGRES_HOST") as [h|]; [destruct (String.eqb h "") eqn:?|];
    (destruct (env "POSTGRES_PORT") as [p|]; [destruct (String.eqb p "") eqn:?|]);
    (destruct (env "POSTGRES_USER") as [u|]; [destruct (String.eqb u "") eqn:?|]);
    (destruct (env "POSTGRES_PASSWORD") as [pw|];
     [destruct (String.eqb pw "") eqn:?|]);
    (destruct (env "POSTGRES_DB") as [d|]; [destruct (String.eqb d "") eqn:?|]);
    repeat match goal with H : String.eqb _ _ = _ |- _ => rewrite H; clear H end;
    reflexivity.
Qed.

End PoolLaws.

Module StartupLaws.

Import Service Observations HandlerFacts StartupFacts.

Section AnyStore.

Context {DB : Type}.
Variable query : string -> list jsval -> DB -> (exn + qresult) * DB.
Variable elapse : Z -> DB -> DB.

(** What [db.init()] and the passing of time both preserve, the loop
    preserves. *)
Lemma init_loop_invariant (P : DB -> Prop) :
  (forall s, P s -> P (snd (query createTable [] s))) ->
  (forall ms s, P s -> P (elapse ms s)) ->
  forall (k : nat) (tries : Z) (w : world),
    passes_left tries = k ->
    P (store w) ->
    P (store (snd (init_loop query elapse tries w))).
Proof.
  intros Hq He. induction k as [|k IH]; intros tries w Hk Hw;
    unfold passes_left in Hk; rewrite init_loop_unfold;
    destruct (Z_lt_dec tries 12) as [Hlt|Hge]; try lia; auto.
  rewrite attempt_run. specialize (Hq _ Hw).
  destruct (query createTable [] (store w)) as [[e|r] s]; simpl in Hq.
  - apply IH; [unfold passes_left; lia|]. simpl. auto.
  - exact Hq.
Qed.

(** If the loop ends with fewer than 12 failures, the store is as the
    successful [db.init()] left it. *)
Lemma init_loop_success (Q : DB -> Prop) :
  (forall s r s', query createTable [] s = (inr r, s') -> Q s') ->
  forall (k : nat) (tries : Z) (w : world) (n : Z),
    passes_left tries = k ->
    fst (init_loop query elapse tries w) = inr n ->
    n < 12 ->
    Q (store (snd (init_loop query elapse tries w))).
Proof.
  intros Hq. induction k as [|k IH]; intros tries w n Hk;
    unfold passes_left in Hk; rewrite init_loop_unfold;
    destruct (Z_lt_dec tries 12) as [Hlt|Hge]; try lia;
    try (simpl; intros [= <-]; lia).
  rewrite attempt_run.
  destruct (query createTable [] (store w)) as [[e|r] s] eqn:E.
  - apply IH. unfold passes_left. lia.
  - simpl. intros _ _. eapply Hq. exact E.
Qed.

End AnyStore.

End StartupLaws.

Module TableLaws.

Import Service Observations Pg HandlerFacts StartupFacts StartupLaws PgFacts.

Lemma filter_unique_id (l : list item) (it : item) :
  NoDup (map id l) -> In it l -> filter (has_id (Some (id it))) l = [it].
Proof.
  induction l as [|x l IH]; simpl; [contradiction|].
  intros Hnd Hin. inversion Hnd as [|? ? Hx Hl]; subst.
  destruct Hin as [->|Hin].
  - rewrite Z.eqb_refl. f_equal. apply filter_unknown_id.
    intros y Hy E. apply Hx. rewrite <- E. now apply in_map.
  - destruct (id x =? id it) eqn:E; [|now apply IH].
    apply Z.eqb_eq in E. exfalso. apply Hx. rewrite E. now apply in_map.
Qed.

Lemma filter_updated (f : item -> item) (l : list item) (it : item) :
  (forall x, id (f x) = id x) ->
  NoDup (map id l) -> In it l ->
  filter (has_id (Some (id it)))
    (map (fun x => if has_id (Some (id it)) x then f x else x) l) = [f it].
Proof.
  intros Hf. induction l as [|x l IH]; simpl; [contradiction|].
  intros Hnd Hin. inversion Hnd as [|? ? Hx Hl]; subst.
  destruct Hin as [->|Hin].
  - rewrite Z.eqb_refl. simpl. rewrite Hf, Z.eqb_refl. f_equal.
    rewrite filter_unknown_id; [reflexivity|].
    intros y Hy E. apply in_map_iff in Hy as (z & <- & Hz).
    destruct (id z =? id it) eqn:Ez.
    + apply Z.eqb_eq in Ez. apply Hx. rewrite <- Ez. now apply in_map.
    + apply Z.eqb_neq in Ez. congruence.
  - destruct (id x =? id it) eqn:E.
    + apply Z.eqb_eq in E. exfalso. apply Hx. rewrite E. now apply in_map.
    + simpl. rewrite E. now apply IH.
Qed.

Lemma filter_after_delete (n : Z) (l : list item) :
  filter (has_id (Some n)) (filter (fun it => negb (has_id (Some n) it)) l) = [].
Proof.
  apply filter_unknown_id. intros it Hit E.
  apply filter_In in Hit as [_ Hit]. simpl in Hit.
  apply Z.eqb_eq in E. rewrite E in Hit. discriminate.
Qed.

Lemma insert_by_id_last (x it : item) (l : list item) :
  id x <= id it ->
  insert_by_id x (l ++ [it]) = (insert_by_id x l ++ [it])%list.
Proof.
  intros H. induction l as [|y l IH]; simpl.
  - replace (id x <=? id it) with true by (symmetry; apply Z.leb_le; exact H).
    reflexivity.
  - destruct (id x <=? id y); [reflexivity|]. now rewrite IH.
Qed.

Lemma order_by_id_last (it : item) (l : list item) :
  Forall (fun x => id x <= id it) l ->
  order_by_id (l ++ [it]) = (order_by_id l ++ [it])%list.
Proof.
  induction 1 as [|x l Hx _ IH]; simpl; [reflexivity|].
  rewrite IH. now apply insert_by_id_last.
Qed.

Lemma same_store (st : pg) (t : table) :
  tbl st = Some t ->
  {| down_for := down_for st; tbl := Some t; clock := clock st |} = st.
Proof. destruct st; simpl; now intros ->. Qed.

Section Store.

Variable int4in : string -> option Z.
Variable serialize : jsval -> string.

#[local] Abbreviation query := (pg_query int4in serialize).

Lemma run_update (pn pd pid : jsval) (t_now : Z) (t : table) :
  run_statement int4in serialize sql_update [pn; pd; pid] t_now t =
  match text_param serialize pn, text_param serialize pd,
        id_param int4in serialize pid with
  | inl e, _, _ => (inl e, t)
  | inr _, inl e, _ => (inl e, t)
  | inr _, inr _, inl e => (inl e, t)
  | inr n, inr d, inr key =>
      match filter (has_id key) (items t), n with
      | [], _ => (inr (answer []), t)
      | _ :: _, None => (inl null_name, t)
      | hit, Some nm =>
          let upd := set_fields nm d in
          (inr (answer (map upd hit)),
           {| items := map (fun it => if has_id key it then upd it else it)
                         (items t);
              seq := seq t |})
      end
  end.
Proof. reflexivity. Qed.

(** [db.init()] is idempotent and never drops rows: a second call
    changes nothing, and a table that exists keeps its contents. *)
Theorem init_is_idempotent (w : world) :
  store (snd (db_init query (snd (db_init query w)))) =
    store (snd (db_init query w)) /\
  (forall t, tbl (store w) = Some t ->
             tbl (store (snd (db_init query w))) = Some t).
Proof.
  unfold db_init, bind, db_query, ret, pg_query, emit. simpl.
  destruct (0 <? down_for (store w)) eqn:Hd; simpl.
  - rewrite Hd. simpl. auto.
  - rewrite Hd. simpl. split; [reflexivity|]. now intros t ->.
Qed.

(** The start-up loop never loses rows: a table that exists when the
    process starts is the same table when the loop ends. *)
Theorem startup_keeps_rows (w : world) (t : table) :
  tbl (store w) = Some t ->
  tbl (store (snd (startup query pg_elapse w))) = Some t.
Proof.
  intros Ht. unfold startup.
  apply (init_loop_invariant query pg_elapse (fun s => tbl s = Some t))
    with (k := passes_left 0); auto.
  intros s Hs. unfold pg_query.
  destruct (0 <? down_for s); simpl; [exact Hs|]. now rewrite Hs.
Qed.

(** If the start-up loop ends with fewer than 12 failed attempts, the
    table exists from then on. *)
Theorem startup_success_means_table (w : world) (n : Z) :
  fst (startup query pg_elapse w) = inr n ->
  n < 12 ->
  exists t, tbl (store (snd (startup query pg_elapse w))) = Some t.
Proof.
  intros Hrun Hn. unfold startup in *.
  apply (init_loop_success query pg_elapse (fun s => exists t, tbl s = Some t))
    with (k := passes_left 0) (n := n); auto.
  intros s r s'. unfold pg_query.
  destruct (0 <? down_for s); [discriminate|]. simpl.
  intros [= _ <-]. simpl. eauto.
Qed.

(** GET /items and GET /items/:id never change the store, whatever
    state it is in and whatever they answer. *)
Theorem reads_never_write (req : request) (w : world) :
  store (snd (get_items query req w)) = store w /\
  store (snd (get_item query req w)) = store w.
Proof.
  split.
  - unfold get_items, try_catch, bind, db_query, ret, on_db_error,
      console_error, emit, pg_query.
    destruct (0 <? down_for (store w)); [reflexivity|].
    change (String.eqb sql_list createTable) with false. cbv iota.
    destruct (tbl (store w)) as [t|] eqn:Ht; [|reflexivity].
    simpl. now apply same_store.
  - unfold get_item, try_catch, bind, db_query, ret, on_db_error,
      console_error, emit, pg_query.
    destruct (0 <? down_for (store w)); [reflexivity|].
    change (String.eqb sql_get createTable) with false. cbv iota.
    destruct (tbl (store w)) as [t|] eqn:Ht; [|reflexivity].
    rewrite run_get.
    destruct (id_param int4in serialize (param req "id")); simpl;
      try destruct (_ =? 0); simpl; now apply same_store.
Qed.

(** DELETE of an id that names a row answers 204 and removes every row
    with that id and no other; the same DELETE again answers 404. *)
Theorem delete_then_gone (req : request) (w : world) (t : table)
    (key : string) (it : item) :
  serving (store w) t ->
  param req "id" = JStr key ->
  int4in key = Some (id it) ->
  In it (items t) ->
  exists w1,
    delete_item query req w = (inr {| status := 204; body := NoBody |}, w1) /\
    tbl (store w1) =
      Some {| items := filter (fun x => negb (id x =? id it)) (items t);
              seq := seq t |} /\
    fst (delete_item query req w1) = inr {| status := 404; body := not_found |}.
Proof.
  intros Hs Hp Hk Hin.
  pose proof (id_param_text int4in serialize _ _ Hk) as Hid.
  unfold delete_item, try_catch, bind, db_query, ret.
  rewrite (query_serving int4in serialize sql_delete _ _ _ Hs eq_refl),
    Hp, run_delete, Hid.
  simpl.
  assert (Hhit : In it (filter (has_id (Some (id it))) (items t))).
  { apply filter_In. split; [exact Hin | simpl; apply Z.eqb_refl]. }
  destruct (filter (has_id (Some (id it))) (items t)) as [|y ys] eqn:Hf;
    [contradiction|].
  simpl List.length.
  replace (Z.of_nat (S (List.length ys)) =? 0) with false
    by (symmetry; apply Z.eqb_neq; lia).
  eexists. split; [reflexivity|]. split; [reflexivity|].
  simpl.
  match goal with
  | |- context [pg_query _ _ _ _ ?st] =>
      assert (Hs1 : serving st
                {| items := filter (fun x => negb (id x =? id it)) (items t);
                   seq := seq t |})
        by (destruct Hs as [Hup _]; split; [exact Hup | reflexivity])
  end.
  rewrite (query_serving int4in serialize sql_delete _ _ _ Hs1 eq_refl),
    ?Hp, run_delete, Hid.
  pose proof (filter_after_delete (id it) (items t)) as Hgone.
  simpl in Hgone |- *. rewrite Hgone. reflexivity.
Qed.

(** PUT on an id that names a row, with a [name] and a [description]
    free of U+0000, answers 200 with the row replaced: [name] and
    [description] are the posted ones (an empty-string description stays
    the empty string, an absent one becomes [null]), [id] and
    [created_at] are kept; a GET for the id then returns the new row. *)
Theorem put_replaces_row (req : request) (w : world) (t : table)
    (key : string) (it : item) (fields : list (string * jsval))
    (nm : string) (d : jsval) :
  serving (store w) t ->
  table_ok t ->
  In it (items t) ->
  param req "id" = JStr key ->
  int4in key = Some (id it) ->
  req_body req = JObj fields ->
  assoc "name" fields = Some (JStr nm) ->
  has_nul nm = false ->
  get_prop (req_body req) "description" = d ->
  (d = JUndefined \/ d = JNull \/ exists s, d = JStr s /\ has_nul s = false) ->
  let it' := {| id := id it; name := nm;
                description := prepareValue serialize d;
                created_at := created_at it |} in
  exists w1,
    put_item query req w =
      (inr {| status := 200; body := Json (item_row it') |}, w1) /\
    get_prop (item_row it') "description" =
      match d with JStr s => JStr s | _ => JNull end /\
    tbl (store w1) =
      Some {| items := map (fun x => if id x =? id it then it' else x) (items t);
              seq := seq t |} /\
    (forall req',
       param req' "id" = JStr key ->
       fst (get_item query req' w1) =
       inr {| status := 200; body := Json (item_row it') |}).
Proof.
  intros Hs [Hnd _] Hin Hp Hk Hb Hn Hnul Hd Hshape it'.
  pose proof (id_param_text int4in serialize _ _ Hk) as Hid.
  pose proof (filter_unique_id _ _ Hnd Hin) as Hf.
  assert (Hbind : text_param serialize d = inr (prepareValue serialize d)).
  { destruct Hshape as [->|[->|(s0 & -> & Hs0)]]; try reflexivity.
    now apply text_param_str. }
  unfold put_item, try_catch, bind, db_query, ret, destructure.
  rewrite Hb in *. simpl in Hd. simpl. rewrite Hn, Hd.
  rewrite (query_serving int4in serialize sql_update _ _ _ Hs eq_refl), Hp,
    run_update, (text_param_str serialize nm Hnul), Hbind, Hid, Hf.
  simpl.
  assert (Hmap :
    map (fun x => if id x =? id it
                  then set_fields nm (prepareValue serialize d) x else x)
        (items t) =
    map (fun x => if id x =? id it then it' else x) (items t)).
  { apply map_ext_in. intros x Hx. destruct (id x =? id it) eqn:E; [|reflexivity].
    apply Z.eqb_eq in E.
    rewrite (same_id_same_item (items t) x it Hnd Hx Hin E). reflexivity. }
  eexists. split; [reflexivity|]. split.
  { destruct Hshape as [->|[->|(s0 & -> & _)]]; reflexivity. }
  split; [simpl; now rewrite Hmap|].
  intros req' Hp'.
  unfold get_item, try_catch, bind, db_query, ret. simpl.
  match goal with
  | |- context [pg_query _ _ _ _ ?st] =>
      match st with
      | {| tbl := Some ?t1 |} =>
          assert (Hs1 : serving st t1)
            by (destruct Hs as [Hup _]; split; [exact Hup | reflexivity])
      end
  end.
  rewrite (query_serving int4in serialize sql_get _ _ _ Hs1 eq_refl), Hp',
    run_get, Hid.
  pose proof (filter_updated (set_fields nm (prepareValue serialize d))
                (items t) it (fun x => eq_refl) Hnd Hin) as Hupd.
  simpl in Hupd |- *. rewrite Hupd. reflexivity.
Qed.

(** PUT without a [name] on an id that names a row is a 500 and the
    table stays as it was: the store refuses the update, because the
    name is NULL unless the description cannot even be bound.  (On an
    id that names no row the same request is a 404.) *)
Theorem put_without_name_on_existing (req : request) (w : world) (t : table)
    (key : string) (it : item) :
  serving (store w) t ->
  In it (items t) ->
  param req "id" = JStr key ->
  int4in key = Some (id it) ->
  has_body req ->
  (get_prop (req_body req) "name" = JUndefined \/
   get_prop (req_body req) "name" = JNull) ->
  fst (put_item query req w) = inr {| status := 500; body := db_error |} /\
  store (snd (put_item query req w)) = store w /\
  exists e,
    In (EvError e) (new_events w (snd (put_item query req w))) /\
    (binds serialize (get_prop (req_body req) "description") = true ->
     e = null_name).
Proof.
  intros Hs Hin Hp Hk [Hu Hnl] Hn.
  pose proof (id_param_text int4in serialize _ _ Hk) as Hid.
  assert (Hhit : In it (filter (has_id (Some (id it))) (items t))).
  { apply filter_In. split; [exact Hin | simpl; apply Z.eqb_refl]. }
  destruct (filter (has_id (Some (id it))) (items t)) as [|y ys] eqn:Hf;
    [contradiction|].
  assert (Hnone : text_param serialize (get_prop (req_body req) "name") = inr None)
    by (destruct Hn as [-> | ->]; reflexivity).
  assert (Hrun :
    exists e,
      run_statement int4in serialize sql_update
        [get_prop (req_body req) "name"; get_prop (req_body req) "description";
         JStr key] (clock (store w)) t = (inl e, t) /\
      (binds serialize (get_prop (req_body req) "description") = true ->
       e = null_name)).
  { rewrite run_update, Hnone, Hid, Hf. unfold binds.
    destruct (text_param serialize (get_prop (req_body req) "description"))
      as [e|d]; eexists; (split; [reflexivity|]); [discriminate|reflexivity]. }
  destruct Hrun as (e & Hrun & He).
  unfold put_item, destructure, on_db_error, try_catch, bind, db_query,
    console_error, ret, new_events, emit.
  destruct (req_body req) eqn:Hb; try congruence;
    cbn [get_prop] in Hrun |- *; cbv beta iota;
    rewrite (query_serving int4in serialize sql_update _ _ _ Hs eq_refl), Hp,
      Hrun;
    simpl;
    (split; [reflexivity|]);
    (split; [apply same_store; apply Hs|]);
    exists e; (split; [|exact He]);
    rewrite skipn_length_app2; simpl; auto.
Qed.

(** After a POST that creates an item, GET /items lists what it listed
    before followed by the new item. *)
Theorem create_then_list (req req2 : request) (w : world) (t : table)
    (fields : list (string * jsval)) (n : string) :
  serving (store w) t ->
  table_ok t ->
  seq t < int4_max ->
  req_body req = JObj fields ->
  assoc "name" fields = Some (JStr n) ->
  n <> "" ->
  has_nul n = false ->
  binds serialize (js_or (get_prop (req_body req) "description") JNull) = true ->
  exists it w1,
    post_item query req w =
      (inr {| status := 201; body := Json (item_row it) |}, w1) /\
    fst (get_items query req2 w) =
      inr {| status := 200;
             body := Json (JArr (map item_row (order_by_id (items t)))) |} /\
    fst (get_items query req2 w1) =
      inr {| status := 200;
             body := Json (JArr (map item_row (order_by_id (items t) ++ [it]))) |}.
Proof.
  intros Hs [_ Hle] Hseq Hb Hn Hne Hnul Hbd.
  apply binds_inv in Hbd as [od Hbd].
  unfold post_item, try_catch, bind, db_query, ret, destructure.
  rewrite Hb in *. simpl in Hbd. simpl. rewrite Hn. simpl.
  replace (String.eqb n "") with false
    by (symmetry; apply String.eqb_neq; exact Hne).
  simpl.
  rewrite (query_serving int4in serialize sql_insert _ _ _ Hs eq_refl),
    (run_insert int4in serialize _ _ _ _ n od Hseq Hle
       (text_param_str serialize n Hnul) Hbd).
  simpl. do 2 eexists. split; [reflexivity|].
  split.
  - unfold get_items, try_catch, bind, db_query, ret.
    rewrite (query_serving int4in serialize sql_list _ _ _ Hs eq_refl).
    reflexivity.
  - unfold get_items, try_catch, bind, db_query, ret. simpl.
    match goal with
    | |- context [pg_query _ _ _ _ ?st] =>
        match st with
        | {| tbl := Some ?t1 |} =>
            assert (Hs1 : serving st t1)
              by (destruct Hs as [Hup _]; split; [exact Hup | reflexivity])
        end
    end.
    rewrite (query_serving int4in serialize sql_list _ _ _ Hs1 eq_refl).
    simpl. rewrite order_by_id_last; [reflexivity|].
    eapply Forall_impl; [|exact Hle]. simpl. intros; lia.
Qed.

(** One statement never lowers the sequence, and the ids in the table
    afterwards are ids that were there before or the next value of the
    sequence. *)
Lemma run_statement_ids (text : string) (ps : list jsval) (t_now : Z) (t : table) :
  let t' := snd (run_statement int4in serialize text ps t_now t) in
  seq t <= seq t' /\
  (forall k, In k (map id (items t')) ->
             In k (map id (items t)) \/ (k = seq t + 1 /\ k <= seq t')).
Proof.
  unfold run_statement.
  destruct (String.eqb text sql_list); [simpl; split; [lia|auto]|].
  destruct (String.eqb text sql_get).
  { destruct ps as [|p [|? ?]]; try (simpl; split; [lia|auto]).
    destruct (id_param _ _ p); simpl; split; auto; lia. }
  destruct (String.eqb text sql_insert).
  { destruct ps as [|pn [|pd [|? ?]]]; try (simpl; split; [lia|auto]).
    destruct (text_param serialize pn) as [e|n]; [simpl; split; [lia|auto]|].
    destruct (text_param serialize pd) as [e|d]; [simpl; split; [lia|auto]|].
    destruct (int4_max <=? seq t); [simpl; split; [lia|auto]|].
    destruct n as [nm|]; [|simpl; split; [lia|auto]].
    destruct (existsb _ (items t)); simpl; (split; [lia|]); auto.
    intros k Hk. rewrite map_app in Hk. apply in_app_or in Hk as [Hk|Hk]; auto.
    simpl in Hk. destruct Hk as [<-|[]]. right. split; [reflexivity|lia]. }
  destruct (String.eqb text sql_update).
  { destruct ps as [|pn [|pd [|pid [|? ?]]]]; try (simpl; split; [lia|auto]).
    destruct (text_param serialize pn) as [e|n]; [simpl; split; [lia|auto]|].
    destruct (text_param serialize pd) as [e|d]; [simpl; split; [lia|auto]|].
    destruct (id_param _ _ pid) as [e|key]; [simpl; split; [lia|auto]|].
    destruct (filter (has_id key) (items t)) as [|hit hits];
      [simpl; split; [lia|auto]|].
    destruct n as [nm|]; simpl; (split; [lia|]); auto.
    intros k Hk. rewrite ids_after_update in Hk. auto. }
  destruct (String.eqb text sql_delete); [|simpl; split; [lia|auto]].
  destruct ps as [|p [|? ?]]; try (simpl; split; [lia|auto]).
  destruct (id_param _ _ p) as [e|key]; simpl; (split; [lia|]); auto.
  intros k Hk. left. apply in_map_iff in Hk as (x & <- & Hx).
  apply filter_In in Hx as [Hx _]. now apply in_map.
Qed.

(** Ids are never reused: an id the sequence has already passed and that
    names no row (it was deleted, or its insert was refused) names no
    row after any series of statements. *)
Theorem ids_never_reused (script : list (string * list jsval)) (t_now : Z)
    (t : table) (k : Z) :
  k <= seq t ->
  ~ In k (map id (items t)) ->
  ~ In k (map id (items (run_script int4in serialize script t_now t))).
Proof.
  revert t. induction script as [|[text ps] script IH]; intros t Hk Hno;
    simpl; [exact Hno|].
  destruct (run_statement_ids text ps t_now t) as [Hseq Hids].
  apply IH; [lia|].
  intros Hin. apply Hids in Hin as [Hin|[Hin _]]; [contradiction|lia].
Qed.

End Store.

End TableLaws.

(* ===================================================================== *)
(** ** The further properties on concrete requests *)
(* ===================================================================== *)

Module MoreScenarios.

Import Service Observations Pg Deployment.
Import HandlerFacts HandlerLaws StackLaws TableLaws.

Lemma shelf_ok : table_ok shelf.
Proof.
  split; simpl.
  - repeat constructor; simpl; intuition discriminate.
  - repeat constructor; simpl; lia.
Qed.

Lemma stocked_serving : serving (store stocked) shelf.
Proof. split; [simpl; lia | reflexivity]. Qed.

Lemma post_400_iff_falsy_name_witness :
  exists res,
    fst (post_item query (on_item "" (JObj [("name", JNum 0)])) stocked) = inr res /\
    status res = 400 /\
    snd (post_item query (on_item "" (JObj [("name", JNum 0)])) stocked) = stocked.
Proof.
  destruct (post_400_iff_falsy_name query
              (on_item "" (JObj [("name", JNum 0)])) stocked)
    as (res & Hrun & Hiff & Hsame).
  - split; discriminate.
  - exists res. split; [exact Hrun|].
    assert (H : status res = 400) by (apply Hiff; reflexivity).
    split; [exact H | exact (Hsame H)].
Defined.

Lemma post_sends_insert_witness :
  exists failure d,
    filter is_query
      (new_events stocked
         (snd (post_item query
                 (on_item "" (JObj [("name", JBool true); ("description", JNum 0)]))
                 stocked))) =
      [EvQuery sql_insert [JBool true; d] failure] /\
    (d = JNull \/ (truthy d = true /\ d = JNum 0)).
Proof.
  apply (post_sends_insert query
           (on_item "" (JObj [("name", JBool true); ("description", JNum 0)]))
           stocked).
  - split; discriminate.
  - reflexivity.
Defined.

Lemma missing_body_is_500_witness :
  fst (post_item query (on_item "1" JUndefined) stocked) =
    inr {| status := 500; body := db_error |} /\
  fst (put_item query (on_item "1" JNull) stocked) =
    inr {| status := 500; body := db_error |}.
Proof.
  split.
  - destruct (missing_body_is_500 query (on_item "1" JUndefined) stocked
                (or_introl eq_refl)) as [-> _]. reflexivity.
  - destruct (missing_body_is_500 query (on_item "1" JNull) stocked
                (or_intror eq_refl)) as [_ ->]. reflexivity.
Defined.

Lemma rejected_body_stops_witness :
  run_app {| in_method := "POST"; in_path := "/items";
             in_body := Rejected (Exn "SyntaxError" "Unexpected end of JSON input") 400 |}
    stocked =
  (inr {| status := 400;
          body := ErrorPage (Exn "SyntaxError" "Unexpected end of JSON input") |},
   {| store := store stocked; histogram := [];
      trace := [EvError (Exn "SyntaxError" "Unexpected end of JSON input")] |}).
Proof.
  apply (rejected_body_stops query no_metrics_text path_match not_routed).
  reflexivity.
Defined.

Lemma scrape_leaves_world_witness :
  run_app (call "GET" "/metrics" (JObj [])) stocked =
    (inr {| status := 200; body := Text "" |}, stocked) /\
  serve query (fun _ => inl (Exn "Error" "collect failed")) path_match not_routed
    (call "GET" "/metrics" (JObj [])) stocked =
    (inl invalid_chunk, stocked).
Proof.
  split.
  - apply (scrape_leaves_world query no_metrics_text path_match not_routed
             (call "GET" "/metrics" (JObj [])) stocked (JObj []));
      reflexivity.
  - apply (scrape_leaves_world query (fun _ => inl (Exn "Error" "collect failed"))
             path_match not_routed
             (call "GET" "/metrics" (JObj [])) stocked (JObj []));
      reflexivity.
Defined.

Lemma healthz_ignores_store_witness :
  run_app (call "GET" "/healthz" (JObj [])) (boot (booting 5000)) =
  (inr {| status := 200; body := Json (JObj [("status", JStr "ok")]) |},
   {| store := booting 5000;
      histogram := [ {| l_method := "GET"; l_route := "/healthz"; l_code := 200 |} ];
      trace := [] |}).
Proof.
  apply (healthz_ignores_store query no_metrics_text path_match not_routed
           (call "GET" "/healthz" (JObj [])) (boot (booting 5000)) (JObj []) []);
    reflexivity.
Defined.

Lemma unrouted_request_witness :
  run_app (call "PATCH" "/items" (JObj [])) stocked =
  (inr {| status := 404; body := NoBody |},
   {| store := store stocked;
      histogram := [ {| l_method := "PATCH"; l_route := "/items"; l_code := 404 |} ];
      trace := [] |}).
Proof.
  apply (unrouted_request query no_metrics_text path_match not_routed
           (call "PATCH" "/items" (JObj [])) stocked (JObj []));
    reflexivity.
Defined.

Lemma startup_keeps_rows_witness :
  tbl (store (snd (startup query pg_elapse stocked))) = Some shelf.
Proof.
  apply (startup_keeps_rows dec_int4in opaque_text stocked shelf). reflexivity.
Defined.

Lemma startup_success_means_table_witness :
  exists t, tbl (store (snd (startup query pg_elapse (boot (booting 5000))))) = Some t.
Proof.
  apply (startup_success_means_table dec_int4in opaque_text
           (boot (booting 5000)) 3).
  - vm_compute. reflexivity.
  - lia.
Defined.

Lemma delete_then_gone_witness :
  exists w1,
    delete_item query (on_item "2" JUndefined) stocked =
      (inr {| status := 204; body := NoBody |}, w1) /\
    fst (delete_item query (on_item "2" JUndefined) w1) =
      inr {| status := 404; body := not_found |}.
Proof.
  destruct (delete_then_gone dec_int4in opaque_text (on_item "2" JUndefined)
              stocked shelf "2"
              {| id := 2; name := "washer"; description := None; created_at := 20 |})
    as (w1 & Hrun & _ & Hagain).
  - exact stocked_serving.
  - reflexivity.
  - reflexivity.
  - simpl. auto.
  - exists w1. split; [exact Hrun | exact Hagain].
Defined.

Lemma put_replaces_row_witness :
  exists w1,
    put_item query
      (on_item "1" (JObj [("name", JStr "nut"); ("description", JStr "")])) stocked =
      (inr {| status := 200;
              body := Json (JObj [("id", JNum 1); ("name", JStr "nut");
                                  ("description", JStr "");
                                  ("created_at", JDate 10)]) |}, w1) /\
    fst (get_item query (on_item "1" JUndefined) w1) =
      inr {| status := 200;
             body := Json (JObj [("id", JNum 1); ("name", JStr "nut");
                                 ("description", JStr "");
                                 ("created_at", JDate 10)]) |}.
Proof.
  destruct (put_replaces_row dec_int4in opaque_text
              (on_item "1" (JObj [("name", JStr "nut"); ("description", JStr "")]))
              stocked shelf "1"
              {| id := 1; name := "nut"; description := Some "M6"; created_at := 10 |}
              [("name", JStr "nut"); ("description", JStr "")] "nut" (JStr ""))
    as (w1 & Hrun & _ & _ & Hget).
  - exact stocked_serving.
  - exact shelf_ok.
  - simpl. auto.
  - reflexivity.
  - reflexivity.
  - reflexivity.
  - reflexivity.
  - reflexivity.
  - reflexivity.
  - right. right. eexists. split; reflexivity.
  - exists w1. split; [exact Hrun|].
    apply (Hget (on_item "1" JUndefined)). reflexivity.
Defined.

Lemma put_without_name_on_existing_witness :
  fst (put_item query (on_item "1" (JObj [("description", JStr "x")])) stocked) =
    inr {| status := 500; body := db_error |} /\
  store (snd (put_item query (on_item "1" (JObj [("description", JStr "x")]))
                stocked)) = store stocked /\
  In (EvError null_name)
    (new_events stocked
       (snd (put_item query (on_item "1" (JObj [("description", JStr "x")]))
               stocked))).
Proof.
  destruct (put_without_name_on_existing dec_int4in opaque_text
              (on_item "1" (JObj [("description", JStr "x")])) stocked shelf "1"
              {| id := 1; name := "nut"; description := Some "M6"; created_at := 10 |})
    as (Hrun & Hsame & e & Hlog & He).
  - exact stocked_serving.
  - simpl. auto.
  - reflexivity.
  - reflexivity.
  - split; discriminate.
  - left. reflexivity.
  - split; [exact Hrun|]. split; [exact Hsame|].
    rewrite <- (He eq_refl). exact Hlog.
Defined.

Lemma create_then_list_witness :
  exists it w1,
    post_item query (on_item "" widget) stocked =
      (inr {| status := 201; body := Json (item_row it) |}, w1) /\
    fst (get_items query (on_item "" JUndefined) w1) =
      inr {| status := 200;
             body := Json (JArr (map item_row (order_by_id (items shelf) ++ [it]))) |}.
Proof.
  destruct (create_then_list dec_int4in opaque_text (on_item "" widget)
              (on_item "" JUndefined) stocked shelf
              [("name", JStr "widget"); ("description", JStr "a widget")] "widget")
    as (it & w1 & Hpost & _ & Hlist).
  - exact stocked_serving.
  - exact shelf_ok.
  - reflexivity.
  - reflexivity.
  - reflexivity.
  - discriminate.
  - reflexivity.
  - reflexivity.
  - exists it, w1. split; [exact Hpost | exact Hlist].
Defined.

Lemma ids_never_reused_witness :
  ~ In 2
      (map id
         (items
            (run_script dec_int4in opaque_text
               [ (sql_insert, [JStr "pin"; JNull]);
                 (sql_delete, [JStr "3"]);
                 (sql_insert, [JStr "clip"; JNull]) ]
               50
               {| items := [ {| id := 3; name := "bolt"; description := None;
                                created_at := 30 |};
                             {| id := 1; name := "nut"; description := Some "M6";
                                created_at := 10 |} ];
                  seq := 3 |}))).
Proof.
  apply (ids_never_reused dec_int4in opaque_text).
  - simpl. lia.
  - simpl. intuition discriminate.
Defined.

End MoreScenarios.
